(** * RVUCounter icon generator: a shallow embedding of [generate_icon.py]

    The script builds a radiology-themed badge with Pillow: a radial
    gradient disc, a border ring, two scan arcs, three chart bars and an
    accent dot, rendered at six sizes and written to [Resources/app.ico]
    and [Resources/app_preview.png].

    Layout of the development:
    - [Py]  : the Python values the script computes with (exceptions,
              binary64 floats, [int()], [/], [//], [range]);
    - [PIL] : the Pillow objects the script manipulates (colours, images
              as a canvas plus the drawing calls applied to it, each
              call refusing a box out of order, pixel read-out over a
              rasteriser, the ICO writer's frame choice);
    - the script itself: [create_icon_image], [create_ico_file], [main],
      over a file system of absolute POSIX paths in which the
      operating system can refuse to create or write;
    - the properties. *)

From Stdlib Require Import ZArith Lia Bool.
From Stdlib Require Import Floats.SpecFloat.
From stdpp Require Import base option list strings gmap.

Open Scope Z_scope.

(* ===================================================================== *)
(** ** Python values *)
(* ===================================================================== *)

Module Py.

(** The exceptions the modelled operations can raise. *)
Inductive exc : Set :=
| ZeroDivisionError
| OverflowError
| ValueError
| IndexError
| FileExistsError
| FileNotFoundError
| IsADirectoryError
| NotADirectoryError
| PermissionError
| OSError.

(** A computation either returns or raises. *)
Inductive result (A : Type) : Type :=
| Ok (a : A)
| Raise (e : exc).
Arguments Ok {A} a.
Arguments Raise {A} e.

(** Sequencing: a raise ends the computation. *)
Definition bind {A B : Type} (m : result A) (k : A -> result B) : result B :=
  match m with
  | Ok a => k a
  | Raise e => Raise e
  end.

(** *** Floats: IEEE 754 binary64, round to nearest even *)

(** Precision and exponent bound of binary64. *)
Definition prec : Z := 53.
Definition emax : Z := 1024.

(** A Python float. *)
Definition float : Set := spec_float.

(** [x + y], [x - y], [x * y] on floats. *)
Definition fadd : float -> float -> float := SFadd prec emax.
Definition fsub : float -> float -> float := SFsub prec emax.
Definition fmul : float -> float -> float := SFmul prec emax.

(** The binary64 nearest to the quotient [a / b] of two positive
    integers of any size (the quotient is rounded once). *)
Definition round_quotient (neg : bool) (a b : positive) : float :=
  let '(q, e, l) := SFdiv_core_binary prec emax (Zpos a) 0 (Zpos b) 0 in
  binary_round_aux prec emax neg q e l.

(** A decimal literal [digits * 10^-scale], as the parser reads it:
    the nearest binary64.  [0.25] is [literal 25 2]. *)
Definition literal (digits : positive) (scale : nat) : float :=
  round_quotient false digits (Z.to_pos (10 ^ Z.of_nat scale)).

(** [float(n)]: nearest binary64, [OverflowError] when out of range. *)
Definition float_of_int (n : Z) : result float :=
  match binary_normalize prec emax n 0 false with
  | S754_infinity _ => Raise OverflowError
  | f => Ok f
  end.

(** [a / b] on ints: true division. *)
Definition truediv (a b : Z) : result float :=
  match b with
  | Z0 => Raise ZeroDivisionError
  | _ =>
      match a with
      | Z0 => Ok (S754_zero (b <? 0))
      | _ =>
          match round_quotient (xorb (a <? 0) (b <? 0))
                  (Z.to_pos (Z.abs a)) (Z.to_pos (Z.abs b)) with
          | S754_infinity _ => Raise OverflowError
          | f => Ok f
          end
      end
  end.

(** [int(x)]: truncation toward zero. *)
Definition int (x : float) : result Z :=
  match x with
  | S754_zero _ => Ok 0
  | S754_finite s m e =>
      let a := match e with
               | Z0 => Zpos m
               | Zpos _ => Z.shiftl (Zpos m) e
               | Zneg p => Z.shiftr (Zpos m) (Zpos p)
               end in
      Ok (if s then - a else a)
  | S754_infinity _ => Raise OverflowError
  | S754_nan => Raise ValueError
  end.

(** Mixed arithmetic converts the int operand first. *)
Definition int_mul_float (n : Z) (x : float) : result float :=
  bind (float_of_int n) (fun f => Ok (fmul f x)).
Definition int_sub_float (n : Z) (x : float) : result float :=
  bind (float_of_int n) (fun f => Ok (fsub f x)).
Definition int_add_float (n : Z) (x : float) : result float :=
  bind (float_of_int n) (fun f => Ok (fadd f x)).

(** [range(start, stop, -1)]: start, start-1, ..., stop+1. *)
Fixpoint countdown (start : Z) (n : nat) : list Z :=
  match n with
  | O => []
  | S k => start :: countdown (start - 1) k
  end.
Definition range_down (start stop : Z) : list Z :=
  countdown start (Z.to_nat (start - stop)).

(** [enumerate(xs)]. *)
Fixpoint enumerate_from {A : Type} (i : Z) (xs : list A) : list (Z * A) :=
  match xs with
  | [] => []
  | x :: rest => (i, x) :: enumerate_from (i + 1) rest
  end.
Definition enumerate {A : Type} (xs : list A) : list (Z * A) :=
  enumerate_from 0 xs.

(** [for x in xs: acc = body(x, acc)], stopping at the first raise. *)
Fixpoint for_each {A S : Type} (xs : list A) (body : A -> S -> result S)
    (s : S) : result S :=
  match xs with
  | [] => Ok s
  | x :: rest => bind (body x s) (for_each rest body)
  end.

End Py.

Notation "'let*' x ':=' m 'in' k" := (Py.bind m (fun x => k))
  (at level 10, x name, m at level 100, k at level 200).

(* ===================================================================== *)
(** ** Pillow objects *)
(* ===================================================================== *)

Module PIL.

(** A colour argument: a 3-tuple or a 4-tuple of ints. *)
Inductive Color : Set :=
| RGB (r g b : Z)
| RGBA (r g b a : Z).

(** [c[:3]] on a 4-tuple. *)
Definition first3 (c : Z * Z * Z * Z) : Color :=
  let '(r, g, b, _) := c in RGB r g b.

(** Image modes ['RGB'] and ['RGBA']. *)
Inductive Mode : Set := ModeRGB | ModeRGBA.

(** A pixel as [getpixel] returns it: one int per band. *)
Definition Pixel : Set := list Z.

(** The number of bands of a mode. *)
Definition bands (m : Mode) : nat :=
  match m with ModeRGB => 3%nat | ModeRGBA => 4%nat end.

(** The value a colour argument stores in an image of mode [m]: a
    3-tuple is opaque in RGBA, and the stored pixel replaces the old
    one (drawing on an image in its own mode does not blend). *)
Definition ink (m : Mode) (c : Color) : Pixel :=
  match m, c with
  | ModeRGBA, RGB r g b => [r; g; b; 255]
  | ModeRGBA, RGBA r g b a => [r; g; b; a]
  | ModeRGB, RGB r g b => [r; g; b]
  | ModeRGB, RGBA r g b _ => [r; g; b]
  end.

(** A bounding box [[x0, y0, x1, y1]]. *)
Record BBox : Set := Box { x0 : Z; y0 : Z; x1 : Z; y1 : Z }.

(** The calls of [ImageDraw.Draw] the script makes, with the arguments
    it leaves at their defaults written out ([fill=None],
    [outline=None], [width=1]). *)
Inductive DrawOp : Set :=
| Ellipse (xy : BBox) (fill outline : option Color) (width : Z)
| Arc (xy : BBox) (start stop : Z) (fill : Color) (width : Z)
| Rectangle (xy : BBox) (fill outline : option Color) (width : Z).

(** An image: what [Image.new] made and the drawing calls applied to
    it since, oldest first. *)
Record Image : Set := MkImage {
  mode : Mode;
  size : Z * Z;
  background : Color;
  drawn : list DrawOp
}.

(** [Image.new(mode, size, color)]; a negative side is a [ValueError]. *)
Definition new (m : Mode) (sz : Z * Z) (c : Color) : Py.result Image :=
  if (fst sz <? 0) || (snd sz <? 0) then Py.Raise Py.ValueError
  else Py.Ok (MkImage m sz c []).

(** [ImageDraw.Draw(img).<call>(...)] mutates [img]. *)
Definition draw (img : Image) (op : DrawOp) : Image :=
  MkImage (mode img) (size img) (background img) (drawn img ++ [op]).

(** The check every call makes on its box: [x1 >= x0] and [y1 >= y0]. *)
Definition ordered (xy : BBox) : bool :=
  (x0 xy <=? x1 xy) && (y0 xy <=? y1 xy).

(** [draw.ellipse(xy, fill, outline, width)],
    [draw.arc(xy, start, end, fill, width)] and
    [draw.rectangle(xy, fill, outline, width)]: a box with [x1 < x0] or
    [y1 < y0] is a [ValueError] and nothing is drawn. *)
Definition ellipse (img : Image) (xy : BBox) (fill outline : option Color)
    (width : Z) : Py.result Image :=
  if ordered xy then Py.Ok (draw img (Ellipse xy fill outline width))
  else Py.Raise Py.ValueError.
Definition arc (img : Image) (xy : BBox) (start stop : Z) (fill : Color)
    (width : Z) : Py.result Image :=
  if ordered xy then Py.Ok (draw img (Arc xy start stop fill width))
  else Py.Raise Py.ValueError.
Definition rectangle (img : Image) (xy : BBox) (fill outline : option Color)
    (width : Z) : Py.result Image :=
  if ordered xy then Py.Ok (draw img (Rectangle xy fill outline width))
  else Py.Raise Py.ValueError.

(** *** Pixels *)

(** The sets of pixels a call can touch.  Angles are in degrees,
    measured from 3 o'clock and increasing clockwise. *)
Inductive Region : Set :=
| FilledEllipse (xy : BBox)
| EllipseOutline (xy : BBox) (width : Z)
| ArcStroke (xy : BBox) (start stop : Z) (width : Z)
| FilledRectangle (xy : BBox)
| RectangleOutline (xy : BBox) (width : Z).

(** One paint when a colour is given. *)
Definition opt_paint (r : Region) (c : option Color) : list (Region * Color) :=
  match c with Some c => [(r, c)] | None => [] end.

(** The ink a [Draw] object uses when a call names neither an outline
    nor a fill: all bits set. *)
Definition default_ink : Color := RGBA 255 255 255 255.

(** [ImageDraw._getink(outline, fill)]. *)
Definition getink (outline fill : option Color)
    : option Color * option Color :=
  match outline, fill with
  | None, None => (Some default_ink, None)
  | _, _ => (outline, fill)
  end.

(** The outline is drawn unless its ink is the fill's or the width is 0. *)
Definition outline_paint (m : Mode) (r : Region) (outline fill : option Color)
    (width : Z) : list (Region * Color) :=
  match outline with
  | None => []
  | Some o =>
      if (width =? 0) || bool_decide (Some (ink m o) = (ink m <$> fill))
      then [] else [(r, o)]
  end.

(** What a call paints on an image of mode [m]: its fill first, then
    its outline. *)
Definition paints (m : Mode) (op : DrawOp) : list (Region * Color) :=
  match op with
  | Ellipse xy fill outline width =>
      let '(outline, fill) := getink outline fill in
      opt_paint (FilledEllipse xy) fill
      ++ outline_paint m (EllipseOutline xy width) outline fill width
  | Arc xy start stop fill width => [(ArcStroke xy start stop width, fill)]
  | Rectangle xy fill outline width =>
      let '(outline, fill) := getink outline fill in
      opt_paint (FilledRectangle xy) fill
      ++ outline_paint m (RectangleOutline xy width) outline fill width
  end.

Section Pixels.

(** Which pixels a region covers is decided inside the library: the
    rasteriser is a parameter. *)
Variable covers : Region -> Z -> Z -> bool.

(** One paint at one pixel: covered pixels take the ink. *)
Definition paint_pixel (m : Mode) (x y : Z) (p : Pixel)
    (rc : Region * Color) : Pixel :=
  if covers (fst rc) x y then ink m (snd rc) else p.

(** The pixel at [(x, y)] after the calls [ops], starting from [p]. *)
Definition pixel_after (m : Mode) (x y : Z) (ops : list DrawOp)
    (p : Pixel) : Pixel :=
  fold_left (paint_pixel m x y) (concat (map (paints m) ops)) p.

(** Whether [(x, y)] is a pixel of the image. *)
Definition in_bounds (img : Image) (x y : Z) : bool :=
  (0 <=? x) && (x <? fst (size img)) && (0 <=? y) && (y <? snd (size img)).

(** A negative index counts from the far edge. *)
Definition from_edge (n i : Z) : Z := if i <? 0 then n + i else i.

(** [img.getpixel((x, y))]. *)
Definition getpixel (img : Image) (xy : Z * Z) : Py.result Pixel :=
  let x := from_edge (fst (size img)) (fst xy) in
  let y := from_edge (snd (size img)) (snd xy) in
  if in_bounds img x y
  then Py.Ok (pixel_after (mode img) x y (drawn img)
                (ink (mode img) (background img)))
  else Py.Raise Py.IndexError.

End Pixels.

(** *** The ICO writer

    What [im.save(path, format='ICO', sizes=..., append_images=...)]
    puts in the container (Pillow's [IcoImagePlugin._save]): the
    requested sizes are taken in sorted order without duplicates; a
    size larger than the image [save] is called on, or larger than
    256, is ignored; a kept size is stored from the first provided
    image of exactly that size, or else from a copy of the image
    [save] is called on, reduced by [thumbnail] to fit the size. *)

(** A frame of the container: an image as provided, or a copy reduced
    to fit within [sz] ([thumbnail] keeps the proportions, so the copy
    is [sz] exactly only when the image has the proportions of [sz]). *)
Inductive Frame : Set :=
| Provided (img : Image)
| Resampled (sz : Z * Z).

(** The box a frame fits in: the pixel dimensions of a provided image,
    the requested size for a reduced copy (its own dimensions are no
    larger). *)
Definition frame_size (f : Frame) : Z * Z :=
  match f with
  | Provided img => size img
  | Resampled sz => sz
  end.

(** The order and equality of sizes as tuples. *)
Definition size_ltb (a b : Z * Z) : bool :=
  (fst a <? fst b) || ((fst a =? fst b) && (snd a <? snd b)).
Definition size_eqb (a b : Z * Z) : bool :=
  (fst a =? fst b) && (snd a =? snd b).

(** Insertion into a sorted list without duplicates. *)
Fixpoint insert_size (a : Z * Z) (l : list (Z * Z)) : list (Z * Z) :=
  match l with
  | [] => [a]
  | b :: rest =>
      if size_ltb a b then a :: l
      else if size_eqb a b then l
      else b :: insert_size a rest
  end.

(** [sorted(set(sizes))]. *)
Definition sorted_set (sizes : list (Z * Z)) : list (Z * Z) :=
  foldr insert_size [] sizes.

(** The frame stored for one requested size, if any. *)
Definition ico_frame (im : Image) (provided_ims : list Image)
    (sz : Z * Z) : list Frame :=
  let '(width, height) := size im in
  if (width <? fst sz) || (height <? snd sz)
     || (256 <? fst sz) || (256 <? snd sz)
  then []
  else
    match List.find (fun p => size_eqb (size p) sz) provided_ims with
    | Some p => [Provided p]
    | None => [Resampled sz]
    end.

(** The frames of the container, in the order written. *)
Definition ico_frames (im : Image) (sizes : list (Z * Z))
    (append_images : list Image) : list Frame :=
  let provided_ims := im :: append_images in
  concat (map (ico_frame im provided_ims) (sorted_set sizes)).

End PIL.

(* ===================================================================== *)
(** ** The script *)
(* ===================================================================== *)

Import PIL.

(** Colours (lines 27-32). *)
Definition bg_dark : Z * Z * Z := (20, 55, 90).
Definition bg_light : Z * Z * Z := (26, 82, 118).
Definition scan_color : Z * Z * Z * Z := (200, 230, 255, 180).
Definition chart_color : Z * Z * Z * Z := (100, 200, 150, 220).
Definition white : Z * Z * Z := (255, 255, 255).

(** [int(d * (1 - ratio) + l * ratio)] (lines 40-42). *)
Definition blend (d l : Z) (ratio : Py.float) : Py.result Z :=
  let* one_minus := Py.int_sub_float 1 ratio in
  let* dark_part := Py.int_mul_float d one_minus in
  let* light_part := Py.int_mul_float l ratio in
  Py.int (Py.fadd dark_part light_part).

(** The colour of the disc of radius [r] (lines 38-43).  [size // 2]
    is floor division by the literal 2, [Z.div]. *)
Definition gradient_color (size r : Z) : Py.result Color :=
  let* ratio := Py.truediv r (size / 2) in
  let '(d0, d1, d2) := bg_dark in
  let '(l0, l1, l2) := bg_light in
  let* c0 := blend d0 l0 ratio in
  let* c1 := blend d1 l1 ratio in
  let* c2 := blend d2 l2 ratio in
  Py.Ok (RGB c0 c1 c2).

(** One turn of the background loop (lines 38-44). *)
Definition gradient_step (size cx cy : Z) (r : Z) (img : Image)
    : Py.result Image :=
  let* color := gradient_color size r in
  ellipse img (Box (cx - r) (cy - r) (cx + r) (cy + r)) (Some color) None 1.

(** Lines 36-44: the circular background. *)
Definition draw_background (size cx cy : Z) (img : Image) : Py.result Image :=
  Py.for_each (Py.range_down (size / 2) 0) (gradient_step size cx cy) img.

(** Lines 46-48: the border. *)
Definition draw_border (size : Z) (img : Image) : Py.result Image :=
  let border_width := Z.max 1 (size / 32) in
  ellipse img (Box 2 2 (size - 3) (size - 3))
    None (Some (RGBA 255 255 255 100)) border_width.

(** [int(size * k)] for a float literal [k]. *)
Definition scaled (size : Z) (k : Py.float) : Py.result Z :=
  let* f := Py.int_mul_float size k in Py.int f.

(** Lines 50-61: the scan arcs. *)
Definition draw_arcs (size cx cy : Z) (img : Image) : Py.result Image :=
  let arc_width := Z.max 2 (size / 20) in
  let* inner_r := scaled size (Py.literal 25 2) in
  let bbox_inner :=
    Box (cx - inner_r) (cy - inner_r) (cx + inner_r) (cy + inner_r) in
  let* img := arc img bbox_inner (-135) (-45) (first3 scan_color) arc_width in
  let* outer_r := scaled size (Py.literal 35 2) in
  let bbox_outer :=
    Box (cx - outer_r) (cy - outer_r) (cx + outer_r) (cy + outer_r) in
  arc img bbox_outer 45 135 (first3 scan_color) arc_width.

(** One turn of the bar loop (lines 70-72). *)
Definition bar_step (bar_x bar_spacing bar_width base_y : Z) (ih : Z * Z)
    (img : Image) : Py.result Image :=
  let '(i, h) := ih in
  let x := bar_x + i * bar_spacing in
  rectangle img (Box x (base_y - h) (x + bar_width) base_y)
    (Some (first3 chart_color)) None 1.

(** Lines 63-72: the chart bars. *)
Definition draw_bars (size cx cy : Z) (img : Image) : Py.result Image :=
  let* w := scaled size (Py.literal 6 2) in
  let bar_width := Z.max 2 w in
  let* bar_spacing := scaled size (Py.literal 8 2) in
  let* base_y :=
    (let* t := Py.int_mul_float size (Py.literal 15 2) in
     let* s := Py.int_add_float cy t in Py.int s) in
  let* bar_x :=
    (let* t := Py.int_mul_float size (Py.literal 12 2) in
     let* s := Py.int_sub_float cx t in Py.int s) in
  let* h0 := scaled size (Py.literal 12 2) in
  let* h1 := scaled size (Py.literal 18 2) in
  let* h2 := scaled size (Py.literal 24 2) in
  let bar_heights := [h0; h1; h2] in
  Py.for_each (Py.enumerate bar_heights)
    (bar_step bar_x bar_spacing bar_width base_y) img.

(** Lines 74-79: the accent dot. *)
Definition draw_dot (size cx cy : Z) (img : Image) : Py.result Image :=
  if 48 <=? size then
    let* d := scaled size (Py.literal 6 2) in
    let dot_size := Z.max 2 d in
    let* dot_x :=
      (let* t := Py.int_mul_float size (Py.literal 2 1) in
       let* s := Py.int_add_float cx t in Py.int s) in
    let* dot_y :=
      (let* t := Py.int_mul_float size (Py.literal 25 2) in
       let* s := Py.int_sub_float cy t in Py.int s) in
    ellipse img (Box dot_x dot_y (dot_x + dot_size) (dot_y + dot_size))
      (Some (RGBA 255 255 255 200)) None 1
  else Py.Ok img.

(** [create_icon_image(size)] (lines 22-81). *)
Definition create_icon_image (size : Z) : Py.result Image :=
  let* img := new ModeRGBA (size, size) (RGBA 0 0 0 0) in
  let cx := size / 2 in
  let cy := size / 2 in
  let* img := draw_background size cx cy img in
  let* img := draw_border size img in
  let* img := draw_arcs size cx cy img in
  let* img := draw_bars size cx cy img in
  let* img := draw_dot size cx cy img in
  Py.Ok img.

(** *** Files *)

(** What a written file holds. *)
Inductive Content : Set :=
| IcoFile (frames : list Frame)
| PngFile (img : Image).

(** What a path names: a directory or a file. *)
Inductive Node : Set :=
| Dir
| File (c : Content).

(** An absolute path is its list of components below the root; the
    empty path is the root.  ([__file__] is absolute when the script is
    run as [python generate_icon.py], so every path of the script is.) *)
Abbreviation Path := (list string).

(** [os.path.join(dir, name)], and the path as printed on a POSIX
    system: the components, each after a [/]; the root is [/]. *)
Definition join (dir : Path) (name : string) : Path := dir ++ [name].
Definition path_str (p : Path) : string :=
  ("/" ++ String.concat "/" p)%string.

(** Why the operating system can refuse to create or to write at a
    path, whatever the tree holds there: the process is not permitted
    to (the directory or the file is not writable), or another reason
    of the device (read-only, full). *)
Inductive Refusal : Set := NotPermitted | OtherRefusal.

(** The exception Python raises for a refusal. *)
Definition refusal_error (r : Refusal) : Py.exc :=
  match r with
  | NotPermitted => Py.PermissionError
  | OtherRefusal => Py.OSError
  end.

(** What the script acts on: the file system, the output, and the
    paths at which the operating system refuses creating or writing.
    (Looking a path up is always permitted.) *)
Record World : Type := MkWorld {
  files : gmap (list string) Node;
  stdout : list string;
  denied : gmap (list string) Refusal
}.

(** [print(line)]. *)
Definition print (line : string) (w : World) : World :=
  MkWorld (files w) (stdout w ++ [line]) (denied w).

(** [os.path.exists(p)]. *)
Definition path_exists (w : World) (p : Path) : bool :=
  match p with
  | [] => true
  | _ => match files w !! p with Some _ => true | None => false end
  end.

(** [os.path.isdir(p)]. *)
Definition is_dir (w : World) (p : Path) : bool :=
  match p with
  | [] => true
  | _ => match files w !! p with Some Dir => true | _ => false end
  end.

(** [os.mkdir(p)]. *)
Definition mkdir (p : Path) (w : World) : Py.result World :=
  if path_exists w p then Py.Raise Py.FileExistsError
  else if is_dir w (removelast p)
  then match denied w !! p with
       | Some r => Py.Raise (refusal_error r)
       | None => Py.Ok (MkWorld (<[p := Dir]> (files w)) (stdout w) (denied w))
       end
  else if path_exists w (removelast p) then Py.Raise Py.NotADirectoryError
  else Py.Raise Py.FileNotFoundError.

(** The [mkdir] that ends [os.makedirs(p, exist_ok=True)]: its error,
    whichever [OSError] it is, is dropped when [p] is a directory. *)
Definition mkdir_exist_ok (p : Path) (w : World) : Py.result World :=
  match mkdir p w with
  | Py.Ok w' => Py.Ok w'
  | Py.Raise e => if is_dir w p then Py.Ok w else Py.Raise e
  end.

(** [os.makedirs(name, exist_ok=True)], on the reversed path [tail ::
    rev head]: a missing [head] is made first, by the same function.
    (The library also ignores a [FileExistsError] of that inner call;
    with a single process there is none, [head] having just been found
    missing.) *)
Fixpoint makedirs_rev (name : list string) (w : World) : Py.result World :=
  match name with
  | [] => mkdir_exist_ok [] w
  | tail :: head =>
      let* w :=
        (match head with
         | [] => Py.Ok w
         | _ => if path_exists w (rev head) then Py.Ok w
                else makedirs_rev head w
         end) in
      mkdir_exist_ok (rev head ++ [tail]) w
  end.

(** [os.makedirs(p, exist_ok=True)]. *)
Definition makedirs (p : Path) (w : World) : Py.result World :=
  makedirs_rev (rev p) w.

(** Opening [p] for writing and storing [c]: the parent must be a
    directory, [p] must not be one, and the operating system must not
    refuse. *)
Definition write_file (p : Path) (c : Content) (w : World) : Py.result World :=
  if negb (path_exists w (removelast p)) then Py.Raise Py.FileNotFoundError
  else if negb (is_dir w (removelast p)) then Py.Raise Py.NotADirectoryError
  else if is_dir w p then Py.Raise Py.IsADirectoryError
  else match denied w !! p with
       | Some r => Py.Raise (refusal_error r)
       | None => Py.Ok (MkWorld (<[p := File c]> (files w)) (stdout w) (denied w))
       end.

(** [im.save(path, format='ICO', sizes=..., append_images=...)]: the
    file is opened first; the writer then raises [ValueError] when no
    requested size is kept. *)
Definition save_ico (im : Image) (p : Path) (sizes : list (Z * Z))
    (append_images : list Image) (w : World) : Py.result World :=
  let frames := ico_frames im sizes append_images in
  let* w := write_file p (IcoFile frames) w in
  match frames with
  | [] => Py.Raise Py.ValueError
  | _ => Py.Ok w
  end.

(** [im.save(path, 'PNG')]. *)
Definition save_png (im : Image) (p : Path) (w : World) : Py.result World :=
  write_file p (PngFile im) w.

(** The sizes of line 86. *)
Definition sizes : list Z := [16; 32; 48; 64; 128; 256].

(** One turn of the loop of lines 89-91. *)
Definition render_step (size : Z) (images : list Image)
    : Py.result (list Image) :=
  let* img := create_icon_image size in
  Py.Ok (images ++ [img]).

(** The loop of lines 89-91. *)
Definition render_images (sizes : list Z) : Py.result (list Image) :=
  Py.for_each sizes render_step [].

(** [create_ico_file(output_path)] (lines 84-100). *)
Definition create_ico_file (output_path : Path) (w : World) : Py.result World :=
  let* images := render_images sizes in
  match images with
  | [] => Py.Raise Py.IndexError
  | first :: rest =>
      let* w := save_ico first output_path (map (fun s => (s, s)) sizes) rest w in
      Py.Ok (print ("Icon created: " ++ path_str output_path) w)
  end.

(** [main()] (lines 103-115); [script_dir] is
    [os.path.dirname(__file__)]. *)
Definition main (script_dir : Path) (w : World) : Py.result World :=
  let resources_dir := join script_dir "Resources" in
  let* w := makedirs resources_dir w in
  let output_path := join resources_dir "app.ico" in
  let* w := create_ico_file output_path w in
  let preview_path := join resources_dir "app_preview.png" in
  let* preview := create_icon_image 256 in
  let* w := save_png preview preview_path w in
  Py.Ok (print ("Preview created: " ++ path_str preview_path) w).

(* ===================================================================== *)
(** ** Vocabulary of the statements *)
(* ===================================================================== *)

(** The computation does not raise [ZeroDivisionError]. *)
Definition never_zde {A : Type} (m : Py.result A) : Prop :=
  m <> Py.Raise Py.ZeroDivisionError.

(** [drawn_on canvas img]: [img] is [canvas] with more drawing calls
    applied; mode, size and background are those of [canvas]. *)
Definition drawn_on (canvas img : Image) : Prop :=
  mode img = mode canvas /\ size img = size canvas /\
  background img = background canvas /\
  exists ops, drawn img = drawn canvas ++ ops.

(** The interpolation of one channel as the integers give it: the value
    [d * (1 - r/half) + l * (r/half)], truncated. *)
Definition lerp_floor (d l r half : Z) : Z :=
  (d * (half - r) + l * r) / half.

(** The colour of the disc of radius [r], by [lerp_floor]. *)
Definition ring_color (size r : Z) : Color :=
  let half := size / 2 in
  RGB (lerp_floor 20 26 r half) (lerp_floor 55 82 r half)
      (lerp_floor 90 118 r half).

(** The box [[cx - r, cy - r, cx + r, cy + r]] of line 44. *)
Definition disc_box (cx cy r : Z) : BBox :=
  Box (cx - r) (cy - r) (cx + r) (cy + r).

(** The call that draws the disc of radius [r] in colour [c]. *)
Definition ring (cx cy r : Z) (c : Color) : DrawOp :=
  Ellipse (disc_box cx cy r) (Some c) None 1.

(** The canvas [create_icon_image] starts from. *)
Definition blank (size : Z) : Image :=
  MkImage ModeRGBA (size, size) (RGBA 0 0 0 0) [].

(** The blue channel of a colour. *)
Definition blue (c : Color) : Z :=
  match c with RGB _ _ b => b | RGBA _ _ b _ => b end.

(** Band [i] of a pixel. *)
Definition band (i : nat) (p : Pixel) : Z := nth i p 0.

#[local] Instance exc_eq_dec : EqDecision Py.exc.
Proof. solve_decision. Defined.
#[local] Instance color_eq_dec : EqDecision Color.
Proof. solve_decision. Defined.
#[local] Instance result_eq_dec {A : Type} `{EqDecision A} :
  EqDecision (Py.result A).
Proof. solve_decision. Defined.

(** Whether the filled disc of radius [r] around [(cx, cy)] covers
    [(x, y)], for a rasteriser [covers]. *)
Definition disc_covers (covers : Region -> Z -> Z -> bool) (cx cy : Z)
    (r x y : Z) : bool :=
  covers (FilledEllipse (disc_box cx cy r)) x y.

(** Among discs drawn in the order [rs], the one that shows at
    [(x, y)]: the last one covering it. *)
Fixpoint showing_disc (covers : Region -> Z -> Z -> bool) (cx cy : Z)
    (x y : Z) (rs : list Z) : option Z :=
  match rs with
  | [] => None
  | r :: rest =>
      match showing_disc covers cx cy x y rest with
      | Some r' => Some r'
      | None => if disc_covers covers cx cy r x y then Some r else None
      end
  end.

(** The image after the background loop alone. *)
Definition background_layer (size : Z) : Py.result Image :=
  draw_background size (size / 2) (size / 2) (blank size).

(** *** A rasteriser to run the statements on

    Pixel centres inside the ideal shape.  Arcs are cut by the two
    rays of their angles, which is exact for the multiples of 45
    degrees; other angles are not handled and cover nothing.  This is
    not Pillow's own rasteriser, which can differ at the rim of a
    shape: the theorems hold for every rasteriser, and this one only
    gives the statements a pixel to be run on. *)

(** Inside the box, bounds included. *)
Definition in_box (b : BBox) (x y : Z) : bool :=
  (x0 b <=? x) && (x <=? x1 b) && (y0 b <=? y) && (y <=? y1 b).

(** Inside the ellipse inscribed in the box (coordinates doubled to
    stay in the integers). *)
Definition in_ellipse (b : BBox) (x y : Z) : bool :=
  let w := x1 b - x0 b in
  let h := y1 b - y0 b in
  let dx := 2 * x - x0 b - x1 b in
  let dy := 2 * y - y0 b - y1 b in
  in_box b x y && (dx * dx * h * h + dy * dy * w * w <=? w * w * h * h).

(** The box [w] pixels further in on every side. *)
Definition shrink (b : BBox) (w : Z) : BBox :=
  Box (x0 b + w) (y0 b + w) (x1 b - w) (y1 b - w).

(** The direction of an angle that is a multiple of 45 degrees
    (clockwise from 3 o'clock, y pointing down). *)
Definition direction (angle : Z) : option (Z * Z) :=
  if angle mod 45 =? 0 then
    Some match (angle / 45) mod 8 with
         | 0 => (1, 0) | 1 => (1, 1) | 2 => (0, 1) | 3 => (-1, 1)
         | 4 => (-1, 0) | 5 => (-1, -1) | 6 => (0, -1) | _ => (1, -1)
         end
  else None.

(** Between the rays of [start] and [stop], turning clockwise. *)
Definition in_sector (start stop : Z) (dx dy : Z) : bool :=
  match direction start, direction stop with
  | Some (sx, sy), Some (ex, ey) =>
      (0 <=? sx * dy - sy * dx) && (0 <=? dx * ey - dy * ex)
  | _, _ => false
  end.

(** The example rasteriser. *)
Definition example_covers (r : Region) (x y : Z) : bool :=
  match r with
  | FilledEllipse b => in_ellipse b x y
  | EllipseOutline b w => in_ellipse b x y && negb (in_ellipse (shrink b w) x y)
  | ArcStroke b start stop w =>
      in_ellipse b x y && negb (in_ellipse (shrink b w) x y)
      && in_sector start stop (2 * x - x0 b - x1 b) (2 * y - y0 b - y1 b)
  | FilledRectangle b => in_box b x y
  | RectangleOutline b w => in_box b x y && negb (in_box (shrink b w) x y)
  end.

(** The arc calls and the rectangle calls. *)
Definition is_arc (op : DrawOp) : bool :=
  match op with Arc _ _ _ _ _ => true | _ => false end.

Definition is_rectangle (op : DrawOp) : bool :=
  match op with Rectangle _ _ _ _ => true | _ => false end.

(** The calls filled with the accent dot's colour. *)
Definition is_dot (op : DrawOp) : bool :=
  match op with
  | Ellipse _ (Some (RGBA 255 255 255 200)) _ _ => true
  | _ => false
  end.

(** The call that draws bar [i] of height [h]. *)
Definition bar (bar_x base_y bar_width bar_spacing i h : Z) : DrawOp :=
  Rectangle
    (Box (bar_x + i * bar_spacing) (base_y - h)
         (bar_x + i * bar_spacing + bar_width) base_y)
    (Some (RGB 100 200 150)) None 1.

(** The dot call with corner [(dot_x, dot_y)] and side [dot_size]
    (line 79). *)
Definition dot_at (dot_x dot_y dot_size : Z) : DrawOp :=
  Ellipse (Box dot_x dot_y (dot_x + dot_size) (dot_y + dot_size))
    (Some (RGBA 255 255 255 200)) None 1.

(** No paint of the calls [ops] covers [(x, y)]. *)
Definition untouched (covers : Region -> Z -> Z -> bool) (m : Mode)
    (ops : list DrawOp) (x y : Z) : bool :=
  forallb (fun rc => negb (covers (fst rc) x y)) (concat (map (paints m) ops)).

(** The dot as the integers give it. *)
Definition dot (sz : Z) : DrawOp :=
  let dot_size := Z.max 2 (6 * sz / 100) in
  let dot_x := (10 * (sz / 2) + 2 * sz) / 10 in
  let dot_y := (100 * (sz / 2) - 25 * sz) / 100 in
  Ellipse (Box dot_x dot_y (dot_x + dot_size) (dot_y + dot_size))
    (Some (RGBA 255 255 255 200)) None 1.

(** Entries are only ever added: what exists stays as it is. *)
Definition extends (w w' : World) : Prop :=
  stdout w' = stdout w /\ denied w' = denied w /\
  forall q node, files w !! q = Some node -> files w' !! q = Some node.

(** The paths of lines 105, 108 and 112. *)
Definition resources_dir (script_dir : Path) : Path :=
  join script_dir "Resources".
Definition ico_path (script_dir : Path) : Path :=
  join (resources_dir script_dir) "app.ico".
Definition preview_path (script_dir : Path) : Path :=
  join (resources_dir script_dir) "app_preview.png".

(** *** Vocabulary of the further properties *)

(** The accent dot when there is one: nothing below 48 pixels. *)
Definition dot_calls (size : Z) (dots : list DrawOp) : Prop :=
  if 48 <=? size
  then exists xy, dots = [Ellipse xy (Some (RGBA 255 255 255 200)) None 1]
  else dots = [].

(** The border call of lines 47-48. *)
Definition border (size : Z) : DrawOp :=
  Ellipse (Box 2 2 (size - 3) (size - 3)) None (Some (RGBA 255 255 255 100))
    (Z.max 1 (size / 32)).

(** The two arc calls of lines 56 and 61. *)
Definition arcs (size inner_r outer_r : Z) : list DrawOp :=
  [ Arc (disc_box (size / 2) (size / 2) inner_r) (-135) (-45)
      (RGB 200 230 255) (Z.max 2 (size / 20));
    Arc (disc_box (size / 2) (size / 2) outer_r) 45 135
      (RGB 200 230 255) (Z.max 2 (size / 20)) ].

(** The disc calls of the background loop, one per radius. *)
Definition disc_calls (size : Z) (discs : list DrawOp) : Prop :=
  Forall2 (fun r op => exists c0 c1 c2,
             gradient_color size r = Py.Ok (RGB c0 c1 c2) /\
             op = ring (size / 2) (size / 2) r (RGB c0 c1 c2))
    (Py.range_down (size / 2) 0) discs.

(** The box of a call. *)
Definition box_of (op : DrawOp) : BBox :=
  match op with
  | Ellipse xy _ _ _ => xy
  | Arc xy _ _ _ _ => xy
  | Rectangle xy _ _ _ => xy
  end.

(** A well-formed box within the pixels [0 .. size - 1]. *)
Definition box_inside (size : Z) (b : BBox) : bool :=
  (0 <=? x0 b) && (x0 b <=? x1 b) && (x1 b <? size)
  && (0 <=? y0 b) && (y0 b <=? y1 b) && (y1 b <? size).

#[local] Instance bbox_eq_dec : EqDecision BBox.
Proof. solve_decision. Defined.
#[local] Instance draw_op_eq_dec : EqDecision DrawOp.
Proof. solve_decision. Defined.

(** The largest background disc of a size whose half is the radius:
    teal, in the box [[0, 0, 2 * half, 2 * half]]. *)
Definition largest_disc (size : Z) : DrawOp :=
  ring (size / 2) (size / 2) (size / 2) (RGB 26 82 118).

(** A call inside the canvas, or the largest disc of an even size. *)
Definition inside_or_largest_disc (size : Z) (op : DrawOp) : bool :=
  box_inside size (box_of op)
  || (Z.even size && bool_decide (op = largest_disc size)).

(** What is checked of [create_icon_image size] by running it: the
    colour of every disc is the one [ring_color] gives; below 5 pixels
    the call raises [ValueError]; from 5 pixels on it returns, its
    calls are inside the canvas, the largest disc of an even size
    apart, and from 48 pixels on its last call is [dot size]. *)
Definition render_check (size : Z) : bool :=
  forallb (fun r => bool_decide (gradient_color size r
                                 = Py.Ok (ring_color size r)))
    (Py.range_down (size / 2) 0)
  && match create_icon_image size with
     | Py.Ok img =>
         (5 <=? size)
         && forallb (inside_or_largest_disc size) (drawn img)
         && ((size <? 48) || bool_decide (last (drawn img) = Some (dot size)))
     | Py.Raise e => (size <? 5) && bool_decide (e = Py.ValueError)
     end.

(** The sizes at which [int(size * 0.35)] falls one short of the
    floor of 35 hundredths of the size, up to 1024. *)
Definition short_sizes : list Z := [180; 340; 360; 660; 680; 700; 720].

(** What is checked of the scaled lengths by running them. *)
Definition scaled_check (size : Z) : bool :=
  bool_decide (scaled size (Py.literal 25 2) = Py.Ok (size / 4))
  && bool_decide (scaled size (Py.literal 35 2) =
                  Py.Ok (if bool_decide (size ∈ short_sizes)
                         then 35 * size / 100 - 1 else 35 * size / 100))
  && bool_decide (scaled size (Py.literal 6 2) = Py.Ok (6 * size / 100))
  && bool_decide (scaled size (Py.literal 8 2) = Py.Ok (8 * size / 100))
  && bool_decide (scaled size (Py.literal 12 2) = Py.Ok (12 * size / 100))
  && bool_decide (scaled size (Py.literal 18 2) = Py.Ok (18 * size / 100))
  && bool_decide (scaled size (Py.literal 24 2) = Py.Ok (24 * size / 100)).

(** [os.path.isfile(p)]: [p] exists and is not a directory. *)
Definition is_file (w : World) (p : Path) : bool :=
  path_exists w p && negb (is_dir w p).

(** In a well-formed file system whatever exists lies in a directory. *)
Definition well_formed (w : World) : Prop :=
  forall q node, files w !! q = Some node -> is_dir w (removelast q) = true.

(** The lines of lines 100 and 115. *)
Definition icon_line (script_dir : Path) : string :=
  "Icon created: " ++ path_str (ico_path script_dir).
Definition preview_line (script_dir : Path) : string :=
  "Preview created: " ++ path_str (preview_path script_dir).

(** The operating system lets the process create or write at [p]. *)
Definition allowed (w : World) (p : Path) : Prop := denied w !! p = None.

(* ===================================================================== *)
(** ** Properties *)
(* ===================================================================== *)

(** *** Reasoning about computations that may raise *)

Lemma bind_ok {A B : Type} (m : Py.result A) (k : A -> Py.result B) (b : B) :
  Py.bind m k = Py.Ok b -> exists a, m = Py.Ok a /\ k a = Py.Ok b.
Proof. destruct m as [a|e]; simpl; [eauto | discriminate]. Qed.

Lemma bind_raise {A B : Type} (m : Py.result A) (k : A -> Py.result B) e :
  Py.bind m k = Py.Raise e ->
  m = Py.Raise e \/ exists a, m = Py.Ok a /\ k a = Py.Raise e.
Proof. destruct m as [a|e']; simpl; [eauto | intros [= ->]; auto]. Qed.

Ltac bind_inv H :=
  let a := fresh "v" in
  let Ha := fresh "Hv" in
  apply bind_ok in H as (a & Ha & H).

(** A loop preserves whatever each of its turns preserves. *)
Lemma for_each_invariant {A S : Type} (P : S -> Prop)
    (body : A -> S -> Py.result S) (xs : list A) :
  (forall x s s', x ∈ xs -> body x s = Py.Ok s' -> P s -> P s') ->
  forall s s', Py.for_each xs body s = Py.Ok s' -> P s -> P s'.
Proof.
  induction xs as [|x xs IH]; simpl; intros Hbody s s' Hrun Hs.
  - injection Hrun as <-. exact Hs.
  - bind_inv Hrun.
    eapply IH; [ | exact Hrun | ].
    + intros y t t' Hy. apply Hbody. now right.
    + eapply Hbody; [left | exact Hv | exact Hs].
Qed.

(** A loop raises only what one of its turns raises. *)
Lemma for_each_raise {A S : Type} (body : A -> S -> Py.result S)
    (xs : list A) e :
  forall s, Py.for_each xs body s = Py.Raise e ->
  exists x t, x ∈ xs /\ body x t = Py.Raise e.
Proof.
  induction xs as [|x xs IH]; simpl; intros s Hrun; [discriminate|].
  apply bind_raise in Hrun as [Hx | (t & _ & Hrest)].
  - exists x, s. split; [left | exact Hx].
  - destruct (IH _ Hrest) as (y & u & Hy & Hu).
    exists y, u. split; [now right | exact Hu].
Qed.

(** *** [range] *)

Lemma countdown_bounds (n : nat) (start r : Z) :
  r ∈ Py.countdown start n -> start - Z.of_nat n < r <= start.
Proof.
  revert start; induction n as [|n IH]; intros start Hr; simpl in Hr.
  - inversion Hr.
  - apply elem_of_cons in Hr as [-> | Hr]; [lia|].
    apply IH in Hr. lia.
Qed.

Lemma range_down_bounds (start stop r : Z) :
  r ∈ Py.range_down start stop -> stop < r <= start.
Proof.
  unfold Py.range_down. intros Hr.
  destruct (Z.le_gt_cases start stop) as [Hle | Hgt].
  - replace (Z.to_nat (start - stop)) with O in Hr by lia. inversion Hr.
  - apply countdown_bounds in Hr. lia.
Qed.

Lemma countdown_length (n : nat) (start : Z) :
  length (Py.countdown start n) = n.
Proof. revert start; induction n; intros; simpl; auto. Qed.

(** *** Which operations can raise [ZeroDivisionError] *)

Lemma float_of_int_raise (n : Z) e :
  Py.float_of_int n = Py.Raise e -> e = Py.OverflowError.
Proof.
  unfold Py.float_of_int.
  destruct (binary_normalize Py.prec Py.emax n 0 false); congruence.
Qed.

Lemma int_raise (x : Py.float) e :
  Py.int x = Py.Raise e -> e = Py.OverflowError \/ e = Py.ValueError.
Proof. destruct x; simpl; intros [= <-] || discriminate; auto. Qed.

Lemma truediv_raise (a b : Z) e :
  Py.truediv a b = Py.Raise e ->
  (e = Py.ZeroDivisionError /\ b = 0) \/ (e = Py.OverflowError /\ b <> 0).
Proof.
  unfold Py.truediv. intros H.
  destruct b as [|b|b]; [injection H as <-; auto | | ]; right;
    (split; [ | lia]);
    (destruct a; [discriminate | | ];
     match type of H with context [Py.round_quotient ?s ?p ?q] =>
       destruct (Py.round_quotient s p q) end; congruence).
Qed.

(** The division raises [ZeroDivisionError] exactly on a zero divisor. *)
Lemma truediv_zero_iff (a b : Z) :
  Py.truediv a b = Py.Raise Py.ZeroDivisionError <-> b = 0.
Proof.
  split.
  - intros H. apply truediv_raise in H as [[_ ?] | [? _]]; [assumption | discriminate].
  - intros ->. reflexivity.
Qed.

Lemma never_zde_bind {A B : Type} (m : Py.result A) (k : A -> Py.result B) :
  never_zde m -> (forall a, m = Py.Ok a -> never_zde (k a)) ->
  never_zde (Py.bind m k).
Proof.
  intros Hm Hk H. apply bind_raise in H as [H | (a & Ha & H)].
  - exact (Hm H).
  - exact (Hk a Ha H).
Qed.

Lemma never_zde_ok {A : Type} (a : A) : never_zde (Py.Ok a).
Proof. discriminate. Qed.

Lemma never_zde_float_of_int (n : Z) : never_zde (Py.float_of_int n).
Proof. intros H. apply float_of_int_raise in H. discriminate. Qed.

Lemma never_zde_int (x : Py.float) : never_zde (Py.int x).
Proof. intros H. apply int_raise in H as [?|?]; discriminate. Qed.

Lemma never_zde_new m sz c : never_zde (new m sz c).
Proof. unfold new. destruct (_ || _); discriminate. Qed.

Lemma never_zde_ellipse img xy fill outline width :
  never_zde (ellipse img xy fill outline width).
Proof. unfold ellipse. destruct (ordered xy); discriminate. Qed.

Lemma never_zde_arc img xy start stop fill width :
  never_zde (arc img xy start stop fill width).
Proof. unfold arc. destruct (ordered xy); discriminate. Qed.

Lemma never_zde_rectangle img xy fill outline width :
  never_zde (rectangle img xy fill outline width).
Proof. unfold rectangle. destruct (ordered xy); discriminate. Qed.

Create HintDb zde.
#[local] Hint Resolve never_zde_ok never_zde_float_of_int never_zde_int
  never_zde_new never_zde_ellipse never_zde_arc never_zde_rectangle : zde.

Ltac never_zde_steps :=
  repeat first
    [ match goal with
      | |- never_zde (Py.bind _ _) => apply never_zde_bind; [ | intros ? _ ]
      end
    | solve [ auto with zde ] ].

Lemma never_zde_int_mul_float n x : never_zde (Py.int_mul_float n x).
Proof. unfold Py.int_mul_float. never_zde_steps. Qed.
Lemma never_zde_int_sub_float n x : never_zde (Py.int_sub_float n x).
Proof. unfold Py.int_sub_float. never_zde_steps. Qed.
Lemma never_zde_int_add_float n x : never_zde (Py.int_add_float n x).
Proof. unfold Py.int_add_float. never_zde_steps. Qed.

#[local] Hint Resolve never_zde_int_mul_float never_zde_int_sub_float
  never_zde_int_add_float : zde.

Lemma never_zde_blend d l ratio : never_zde (blend d l ratio).
Proof. unfold blend. never_zde_steps. Qed.

Lemma never_zde_scaled size k : never_zde (scaled size k).
Proof. unfold scaled. never_zde_steps. Qed.

#[local] Hint Resolve never_zde_blend never_zde_scaled : zde.

Lemma never_zde_draw_arcs size cx cy img : never_zde (draw_arcs size cx cy img).
Proof. unfold draw_arcs. never_zde_steps. Qed.

Lemma never_zde_for_each {A S : Type} (body : A -> S -> Py.result S) xs s :
  (forall x t, x ∈ xs -> never_zde (body x t)) ->
  never_zde (Py.for_each xs body s).
Proof.
  intros Hbody H. apply for_each_raise in H as (x & t & Hx & H).
  exact (Hbody x t Hx H).
Qed.

Lemma never_zde_draw_bars size cx cy img : never_zde (draw_bars size cx cy img).
Proof.
  unfold draw_bars. never_zde_steps.
  apply never_zde_for_each. intros [i h] t _. apply never_zde_rectangle.
Qed.

Lemma never_zde_draw_dot size cx cy img : never_zde (draw_dot size cx cy img).
Proof. unfold draw_dot. destruct (48 <=? size); never_zde_steps. Qed.

(** The colour computation divides by zero only if [size // 2] is zero. *)
Lemma gradient_color_zde size r :
  gradient_color size r = Py.Raise Py.ZeroDivisionError -> size / 2 = 0.
Proof.
  unfold gradient_color. intros H.
  apply bind_raise in H as [H | (ratio & _ & H)].
  - now apply truediv_zero_iff in H.
  - exfalso. revert H. simpl. fold (never_zde (A:=Color)).
    change (never_zde
      (let* c0 := blend 20 26 ratio in
       let* c1 := blend 55 82 ratio in
       let* c2 := blend 90 118 ratio in Py.Ok (RGB c0 c1 c2))).
    never_zde_steps.
Qed.

Lemma never_zde_draw_background size cx cy img :
  never_zde (draw_background size cx cy img).
Proof.
  unfold draw_background. apply never_zde_for_each. intros r t Hr H.
  unfold gradient_step in H.
  apply bind_raise in H as [H | (c & _ & H)];
    [ | exact (never_zde_ellipse _ _ _ _ _ H)].
  apply gradient_color_zde in H.
  apply range_down_bounds in Hr. lia.
Qed.

Lemma never_zde_draw_border size img : never_zde (draw_border size img).
Proof. unfold draw_border. apply never_zde_ellipse. Qed.

#[local] Hint Resolve never_zde_draw_arcs never_zde_draw_bars
  never_zde_draw_dot never_zde_draw_background never_zde_draw_border : zde.

(** C9. For every integer [size] (the positive ones in particular)
    the ratio [r / (size // 2)] of the background loop is never a
    division by zero: every [r] the loop visits satisfies
    [1 <= r <= size // 2], so the divisor is at least 1 and the division
    does not raise [ZeroDivisionError]; for [size = 1] the range is empty
    and the body never runs; and [create_icon_image] as a whole never
    raises [ZeroDivisionError]. *)
Theorem gradient_ratio_never_divides_by_zero :
  (forall size r : Z,
      r ∈ Py.range_down (size / 2) 0 ->
      1 <= r <= size / 2 /\ 1 <= size / 2 /\
      Py.truediv r (size / 2) <> Py.Raise Py.ZeroDivisionError)
  /\ Py.range_down (1 / 2) 0 = []
  /\ (forall size : Z,
        create_icon_image size <> Py.Raise Py.ZeroDivisionError).
Proof.
  split; [ | split].
  - intros size r Hr. apply range_down_bounds in Hr.
    split; [lia | split; [lia | ]].
    rewrite truediv_zero_iff. lia.
  - reflexivity.
  - intros size. fold (never_zde (create_icon_image size)).
    unfold create_icon_image. never_zde_steps.
Qed.

(** *** The drawing calls *)

Lemma ellipse_ok img xy fill outline width img' :
  ellipse img xy fill outline width = Py.Ok img' ->
  ordered xy = true /\ img' = draw img (Ellipse xy fill outline width).
Proof. unfold ellipse. destruct (ordered xy); [intros [= <-]; auto | discriminate]. Qed.

Lemma arc_ok img xy start stop fill width img' :
  arc img xy start stop fill width = Py.Ok img' ->
  ordered xy = true /\ img' = draw img (Arc xy start stop fill width).
Proof. unfold arc. destruct (ordered xy); [intros [= <-]; auto | discriminate]. Qed.

Lemma rectangle_ok img xy fill outline width img' :
  rectangle img xy fill outline width = Py.Ok img' ->
  ordered xy = true /\ img' = draw img (Rectangle xy fill outline width).
Proof.
  unfold rectangle. destruct (ordered xy); [intros [= <-]; auto | discriminate].
Qed.

Lemma ordered_spec xy :
  ordered xy = true <-> x0 xy <= x1 xy /\ y0 xy <= y1 xy.
Proof. unfold ordered. rewrite andb_true_iff, !Z.leb_le. tauto. Qed.

(** A box around a centre is in order as soon as the radius is not
    negative. *)
Lemma ordered_disc_box cx cy r : 0 <= r -> ordered (disc_box cx cy r) = true.
Proof. intros Hr. apply ordered_spec. simpl. lia. Qed.

(** *** The canvas an image is drawn on *)

Lemma drawn_on_refl img : drawn_on img img.
Proof. repeat split. exists []. now rewrite app_nil_r. Qed.

Lemma drawn_on_draw canvas img op :
  drawn_on canvas img -> drawn_on canvas (draw img op).
Proof.
  intros (Hm & Hs & Hb & ops & Hd). repeat split; simpl; try assumption.
  exists (ops ++ [op]). rewrite Hd. now rewrite app_assoc.
Qed.

Lemma drawn_on_trans a b c : drawn_on a b -> drawn_on b c -> drawn_on a c.
Proof.
  intros (Hm & Hs & Hb & ops & Hd) (Hm' & Hs' & Hb' & ops' & Hd').
  repeat split; try congruence.
  exists (ops ++ ops'). rewrite Hd', Hd. now rewrite app_assoc.
Qed.

Lemma draw_background_drawn_on size cx cy img img' :
  draw_background size cx cy img = Py.Ok img' -> drawn_on img img'.
Proof.
  intros H. unfold draw_background in H.
  eapply (for_each_invariant (drawn_on img)); [ | exact H | apply drawn_on_refl].
  intros r s s' _ Hstep Hs. unfold gradient_step in Hstep.
  bind_inv Hstep. apply ellipse_ok in Hstep as [_ ->]. now apply drawn_on_draw.
Qed.

Lemma draw_border_drawn_on size img img' :
  draw_border size img = Py.Ok img' -> drawn_on img img'.
Proof.
  intros H. apply ellipse_ok in H as [_ ->].
  apply drawn_on_draw, drawn_on_refl.
Qed.

Lemma draw_arcs_drawn_on size cx cy img img' :
  draw_arcs size cx cy img = Py.Ok img' -> drawn_on img img'.
Proof.
  intros H. unfold draw_arcs in H.
  apply bind_ok in H as (ri & _ & H).
  apply bind_ok in H as (i1 & H1 & H).
  apply bind_ok in H as (ro & _ & H).
  apply arc_ok in H1 as [_ ->]. apply arc_ok in H as [_ ->].
  do 2 apply drawn_on_draw. apply drawn_on_refl.
Qed.

Lemma draw_bars_drawn_on size cx cy img img' :
  draw_bars size cx cy img = Py.Ok img' -> drawn_on img img'.
Proof.
  intros H. unfold draw_bars in H. do 7 bind_inv H.
  eapply (for_each_invariant (drawn_on img)); [ | exact H | apply drawn_on_refl].
  intros [i h] s s' _ Hstep Hs. apply rectangle_ok in Hstep as [_ ->].
  now apply drawn_on_draw.
Qed.

Lemma draw_dot_drawn_on size cx cy img img' :
  draw_dot size cx cy img = Py.Ok img' -> drawn_on img img'.
Proof.
  intros H. unfold draw_dot in H. destruct (48 <=? size).
  - do 3 bind_inv H. apply ellipse_ok in H as [_ ->].
    apply drawn_on_draw, drawn_on_refl.
  - injection H as <-. apply drawn_on_refl.
Qed.

(** The stages of a successful [create_icon_image]. *)
Lemma create_icon_image_stages size img :
  create_icon_image size = Py.Ok img ->
  exists canvas bg bordered arcs bars,
    new ModeRGBA (size, size) (RGBA 0 0 0 0) = Py.Ok canvas /\
    draw_background size (size / 2) (size / 2) canvas = Py.Ok bg /\
    draw_border size bg = Py.Ok bordered /\
    draw_arcs size (size / 2) (size / 2) bordered = Py.Ok arcs /\
    draw_bars size (size / 2) (size / 2) arcs = Py.Ok bars /\
    draw_dot size (size / 2) (size / 2) bars = Py.Ok img.
Proof.
  intros H. unfold create_icon_image in H.
  apply bind_ok in H as (canvas & Hnew & H).
  apply bind_ok in H as (i1 & H1 & H).
  apply bind_ok in H as (i2 & H2 & H).
  apply bind_ok in H as (i3 & H3 & H).
  apply bind_ok in H as (i4 & H4 & H).
  apply bind_ok in H as (i5 & H5 & H). injection H as <-.
  exists canvas, i1, i2, i3, i4. split_and!; assumption.
Qed.

(** Whatever [create_icon_image] returns is the blank canvas of
    [Image.new] with drawing calls applied. *)
Lemma create_icon_image_drawn_on size img :
  create_icon_image size = Py.Ok img ->
  exists canvas,
    new ModeRGBA (size, size) (RGBA 0 0 0 0) = Py.Ok canvas /\
    drawn_on canvas img.
Proof.
  intros H.
  apply create_icon_image_stages in H
    as (canvas & i1 & i2 & i3 & i4 & Hnew & H1 & H2 & H3 & H4 & H5).
  exists canvas. split; [exact Hnew | ].
  eapply drawn_on_trans; [eapply draw_background_drawn_on, H1 | ].
  eapply drawn_on_trans; [eapply draw_border_drawn_on, H2 | ].
  eapply drawn_on_trans; [eapply draw_arcs_drawn_on, H3 | ].
  eapply drawn_on_trans; [eapply draw_bars_drawn_on, H4 | ].
  eapply draw_dot_drawn_on, H5.
Qed.

Lemma new_ok m w h c canvas :
  new m (w, h) c = Py.Ok canvas ->
  0 <= w /\ 0 <= h /\ canvas = MkImage m (w, h) c [].
Proof.
  unfold new. simpl. destruct (w <? 0) eqn:Hw; destruct (h <? 0) eqn:Hh;
    simpl; intros [= <-] || discriminate. repeat split; lia.
Qed.

(** *** Reading pixels *)

Section PixelFacts.

Variable covers : Region -> Z -> Z -> bool.

Lemma in_bounds_spec img x y :
  in_bounds img x y = true <->
  0 <= x < fst (size img) /\ 0 <= y < snd (size img).
Proof. unfold in_bounds. rewrite !andb_true_iff. lia. Qed.

Lemma from_edge_nonneg n i : 0 <= i -> from_edge n i = i.
Proof.
  intros Hi. unfold from_edge. destruct (i <? 0) eqn:Hlt; [ | reflexivity].
  apply Z.ltb_lt in Hlt. lia.
Qed.

Lemma getpixel_nonneg img x y :
  0 <= x -> 0 <= y ->
  getpixel covers img (x, y) =
  if in_bounds img x y
  then Py.Ok (pixel_after covers (mode img) x y (drawn img)
                (ink (mode img) (background img)))
  else Py.Raise Py.IndexError.
Proof.
  intros Hx Hy. unfold getpixel. cbn [fst snd].
  now rewrite !from_edge_nonneg.
Qed.

Lemma getpixel_inside img x y :
  in_bounds img x y = true ->
  getpixel covers img (x, y) =
  Py.Ok (pixel_after covers (mode img) x y (drawn img)
           (ink (mode img) (background img))).
Proof.
  intros Hin. pose proof (proj1 (in_bounds_spec img x y) Hin) as [Hx Hy].
  rewrite getpixel_nonneg by lia. now rewrite Hin.
Qed.

Lemma getpixel_ok_iff img x y :
  0 <= x -> 0 <= y ->
  (exists p, getpixel covers img (x, y) = Py.Ok p) <->
  x < fst (size img) /\ y < snd (size img).
Proof.
  intros Hx Hy. rewrite getpixel_nonneg by assumption.
  destruct (in_bounds img x y) eqn:Hin.
  - apply in_bounds_spec in Hin. split; [lia | eauto].
  - split; [intros [p Hp]; discriminate | ].
    intros [Hx' Hy'].
    assert (in_bounds img x y = true) by (apply in_bounds_spec; lia).
    congruence.
Qed.

Lemma pixel_after_app m x y ops1 ops2 p :
  pixel_after covers m x y (ops1 ++ ops2) p =
  pixel_after covers m x y ops2 (pixel_after covers m x y ops1 p).
Proof.
  unfold pixel_after. now rewrite map_app, concat_app, fold_left_app.
Qed.

Lemma pixel_after_cons m x y op ops p :
  pixel_after covers m x y (op :: ops) p =
  pixel_after covers m x y ops
    (fold_left (paint_pixel covers m x y) (paints m op) p).
Proof. unfold pixel_after. simpl. now rewrite fold_left_app. Qed.

(** A pixel holds either what it held or the ink of one of the paints. *)
Lemma fold_paint_cases m x y paints0 p :
  fold_left (paint_pixel covers m x y) paints0 p = p \/
  exists rc, rc ∈ paints0 /\
    fold_left (paint_pixel covers m x y) paints0 p = ink m (snd rc).
Proof.
  revert p; induction paints0 as [|rc rest IH]; intros p; simpl; [now left|].
  destruct (IH (paint_pixel covers m x y p rc)) as [Hsame | (rc' & Hin & Hrc')].
  - rewrite Hsame. unfold paint_pixel. destruct (covers (fst rc) x y).
    + right. exists rc. split; [left | reflexivity].
    + now left.
  - right. exists rc'. split; [now right | exact Hrc'].
Qed.

Lemma pixel_bands m x y paints0 p :
  length p = bands m ->
  length (fold_left (paint_pixel covers m x y) paints0 p) = bands m.
Proof.
  intros Hp. destruct (fold_paint_cases m x y paints0 p) as [-> | (rc & _ & ->)].
  - exact Hp.
  - destruct m, (snd rc); reflexivity.
Qed.

End PixelFacts.

(** The six icon sizes, one case each. *)
Lemma sizes_cases (sz : Z) :
  sz ∈ sizes ->
  sz = 16 \/ sz = 32 \/ sz = 48 \/ sz = 64 \/ sz = 128 \/ sz = 256.
Proof.
  unfold sizes. rewrite !elem_of_cons, elem_of_nil. tauto.
Qed.

Ltac each_size H :=
  apply sizes_cases in H;
  destruct H as [-> | [-> | [-> | [-> | [-> | ->]]]]].

(** C3. For every size in {16, 32, 48, 64, 128, 256},
    [create_icon_image size] returns an image of exactly [size] x [size]
    pixels in mode RGBA (reading the pixel at non-negative coordinates
    succeeds exactly below [size] and gives four bands; a negative
    index counts from the far edge), obtained by drawing on the canvas of
    [Image.new], which has no drawing call applied and reads
    [(0, 0, 0, 0)], fully transparent, at every pixel. *)
Theorem canvas_is_square_rgba_transparent (sz : Z) :
  sz ∈ sizes ->
  exists canvas img,
    new ModeRGBA (sz, sz) (RGBA 0 0 0 0) = Py.Ok canvas /\
    create_icon_image sz = Py.Ok img /\
    drawn_on canvas img /\
    size img = (sz, sz) /\ mode img = ModeRGBA /\
    drawn canvas = [] /\
    (forall covers x y,
        0 <= x -> 0 <= y ->
        (exists p, getpixel covers img (x, y) = Py.Ok p /\ length p = 4%nat)
        <-> x < sz /\ y < sz) /\
    (forall covers x y,
        0 <= x < sz -> 0 <= y < sz ->
        getpixel covers canvas (x, y) = Py.Ok [0; 0; 0; 0]).
Proof.
  intros Hsz.
  assert (Hok : exists img, create_icon_image sz = Py.Ok img).
  { each_size Hsz; eexists; vm_compute; reflexivity. }
  destruct Hok as [img Himg].
  destruct (create_icon_image_drawn_on _ _ Himg) as (canvas & Hnew & Hon).
  pose proof (new_ok _ _ _ _ _ Hnew) as (Hw & _ & ->).
  pose proof Hon as (Hm & Hs & Hb & _). simpl in Hm, Hs, Hb.
  exists (MkImage ModeRGBA (sz, sz) (RGBA 0 0 0 0) []), img.
  split_and!; try done.
  - intros covers x y Hx0 Hy0. split.
    + intros (p & Hp & _).
      assert (Hex : exists p, getpixel covers img (x, y) = Py.Ok p) by eauto.
      apply getpixel_ok_iff in Hex; [ | assumption | assumption].
      rewrite Hs in Hex. simpl in Hex. lia.
    + intros [Hx Hy].
      assert (Hin : in_bounds img x y = true)
        by (apply in_bounds_spec; rewrite Hs; simpl; lia).
      rewrite getpixel_inside by exact Hin.
      eexists. split; [reflexivity | ].
      unfold pixel_after. rewrite Hm, Hb.
      apply (pixel_bands covers ModeRGBA). reflexivity.
  - intros covers x y Hx Hy.
    assert (Hin : in_bounds (MkImage ModeRGBA (sz, sz) (RGBA 0 0 0 0) []) x y = true)
      by (apply in_bounds_spec; simpl; lia).
    rewrite getpixel_inside by exact Hin. reflexivity.
Qed.

Lemma canvas_is_square_rgba_transparent_witness :
  48 ∈ sizes /\
  exists img, create_icon_image 48 = Py.Ok img /\ size img = (48, 48) /\
              mode img = ModeRGBA.
Proof.
  assert (H : 48 ∈ sizes) by (unfold sizes; set_solver).
  split; [exact H | ].
  destruct (canvas_is_square_rgba_transparent 48 H)
    as (canvas & img & _ & Himg & _ & Hs & Hm & _).
  exists img. auto.
Defined.

(** *** The background discs *)

(** On the six sizes the float computation of the script and the
    integer interpolation agree on every disc. *)
Lemma gradient_color_refines (sz r : Z) :
  sz ∈ sizes -> r ∈ Py.range_down (sz / 2) 0 ->
  gradient_color sz r = Py.Ok (ring_color sz r).
Proof.
  intros Hsz. revert r. apply Forall_forall.
  each_size Hsz; apply (bool_decide_unpack _); vm_compute; exact I.
Qed.

(** The loop appends one disc per radius, in the order of the range. *)
Lemma for_each_rings size cx cy (col : Z -> Color) (rs : list Z) :
  (forall r, r ∈ rs -> 0 <= r /\ gradient_color size r = Py.Ok (col r)) ->
  forall img,
    Py.for_each rs (gradient_step size cx cy) img =
    Py.Ok (MkImage (mode img) (PIL.size img) (background img)
             (drawn img ++ map (fun r => ring cx cy r (col r)) rs)).
Proof.
  induction rs as [|r rs IH]; intros Hcol img; simpl.
  - rewrite app_nil_r. now destruct img.
  - unfold gradient_step at 1.
    destruct (Hcol r) as [Hr Hc]; [now left | ].
    rewrite Hc. cbn [Py.bind]. unfold ellipse.
    change (Box (cx - r) (cy - r) (cx + r) (cy + r)) with (disc_box cx cy r).
    rewrite ordered_disc_box by exact Hr. cbn [Py.bind].
    rewrite IH by (intros r' Hr'; apply Hcol; now right). simpl.
    now rewrite <- app_assoc.
Qed.

Lemma draw_background_rings (sz : Z) img :
  sz ∈ sizes ->
  draw_background sz (sz / 2) (sz / 2) img =
  Py.Ok (MkImage (mode img) (size img) (background img)
           (drawn img ++
            map (fun r => ring (sz / 2) (sz / 2) r (ring_color sz r))
              (Py.range_down (sz / 2) 0))).
Proof.
  intros Hsz. unfold draw_background. apply for_each_rings.
  intros r Hr. split; [apply range_down_bounds in Hr; lia | ].
  now apply gradient_color_refines.
Qed.

Lemma countdown_lookup (n : nat) (start : Z) (i : nat) :
  (i < n)%nat -> Py.countdown start n !! i = Some (start - Z.of_nat i).
Proof.
  revert start i; induction n as [|n IH]; intros start i Hi; [lia|].
  destruct i as [|i]; simpl.
  - f_equal. lia.
  - rewrite IH by lia. f_equal. lia.
Qed.

Lemma countdown_elem (n : nat) (start r : Z) :
  start - Z.of_nat n < r <= start -> r ∈ Py.countdown start n.
Proof.
  revert start; induction n as [|n IH]; intros start Hr; [lia|].
  simpl. destruct (decide (r = start)) as [-> | Hne]; [left | right].
  apply IH. lia.
Qed.

Lemma range_down_elem (start stop r : Z) :
  r ∈ Py.range_down start stop <-> stop < r <= start.
Proof.
  split; [apply range_down_bounds | ].
  intros Hr. unfold Py.range_down. apply countdown_elem. lia.
Qed.

(** *** Interpolation arithmetic *)

Lemma lerp_floor_bounds (d l r half : Z) :
  0 < half ->
  half * lerp_floor d l r half <= d * (half - r) + l * r
    < half * (lerp_floor d l r half + 1).
Proof.
  intros Hh. unfold lerp_floor.
  pose proof (Z.mul_div_le (d * (half - r) + l * r) half Hh).
  pose proof (Z.mul_succ_div_gt (d * (half - r) + l * r) half Hh).
  lia.
Qed.

Lemma lerp_floor_mono (d l r1 r2 half : Z) :
  0 < half -> d <= l -> r1 <= r2 ->
  lerp_floor d l r1 half <= lerp_floor d l r2 half.
Proof.
  intros Hh Hdl Hr. unfold lerp_floor.
  apply Z.div_le_mono; [exact Hh | nia].
Qed.

Lemma lerp_floor_edge (d l half : Z) :
  0 < half -> lerp_floor d l half half = l.
Proof.
  intros Hh. unfold lerp_floor.
  replace (d * (half - half) + l * half) with (l * half) by lia.
  now apply Z.div_mul, Z.neq_sym, Z.lt_neq.
Qed.

(** *** Pixels of the background *)

Section BackgroundPixels.

Variable covers : Region -> Z -> Z -> bool.
Variables cx cy : Z.
Variable col : Z -> Color.

#[local] Abbreviation disc_covers := (disc_covers covers cx cy).
#[local] Abbreviation showing_disc := (showing_disc covers cx cy).

Lemma rings_pixel m x y rs p :
  pixel_after covers m x y (map (fun r => ring cx cy r (col r)) rs) p =
  match showing_disc x y rs with
  | Some r => ink m (col r)
  | None => p
  end.
Proof.
  revert p; induction rs as [|r rs IH]; intros p; [reflexivity|].
  simpl map. rewrite pixel_after_cons, IH. simpl.
  destruct (showing_disc x y rs); [reflexivity|].
  unfold paint_pixel, disc_covers. simpl.
  now destruct (covers _ x y).
Qed.

Lemma showing_disc_some x y rs r :
  showing_disc x y rs = Some r -> r ∈ rs /\ disc_covers r x y = true.
Proof.
  induction rs as [|r0 rs IH]; simpl; [discriminate|].
  destruct (showing_disc x y rs) as [r'|].
  - intros [= ->]. destruct (IH eq_refl). split; [now right | assumption].
  - destruct (disc_covers r0 x y) eqn:Hc; [ | discriminate].
    intros [= ->]. split; [left | assumption].
Qed.

Lemma showing_disc_none x y rs r :
  showing_disc x y rs = None -> r ∈ rs -> disc_covers r x y = false.
Proof.
  induction rs as [|r0 rs IH]; simpl; [intros _ Hr; inversion Hr|].
  destruct (showing_disc x y rs) as [r'|]; [discriminate|].
  destruct (disc_covers r0 x y) eqn:Hc; [discriminate|].
  intros _ Hr. apply elem_of_cons in Hr as [-> | Hr]; auto.
Qed.

(** In a descending range the showing disc is the smallest covering
    one: no larger than any disc that covers the pixel. *)
Lemma showing_disc_countdown x y n start r :
  r ∈ Py.countdown start n -> disc_covers r x y = true ->
  exists r', showing_disc x y (Py.countdown start n) = Some r' /\ r' <= r.
Proof.
  revert start; induction n as [|n IH]; intros start Hr Hc; simpl in *.
  - inversion Hr.
  - apply elem_of_cons in Hr as [-> | Hr].
    + destruct (showing_disc x y (Py.countdown (start - 1) n)) as [r'|] eqn:Hs.
      * exists r'. split; [reflexivity|].
        apply showing_disc_some in Hs as [Hin _].
        apply countdown_bounds in Hin. lia.
      * rewrite Hc. exists start. split; [reflexivity | lia].
    + destruct (IH _ Hr Hc) as (r' & -> & Hle). eauto.
Qed.

End BackgroundPixels.

Lemma background_layer_pixel covers (sz x y : Z) :
  sz ∈ sizes -> 0 <= x < sz -> 0 <= y < sz ->
  exists bg,
    background_layer sz = Py.Ok bg /\
    getpixel covers bg (x, y) =
    Py.Ok match showing_disc covers (sz / 2) (sz / 2) x y
                  (Py.range_down (sz / 2) 0) with
          | Some r => ink ModeRGBA (ring_color sz r)
          | None => [0; 0; 0; 0]
          end.
Proof.
  intros Hsz Hx Hy. unfold background_layer.
  rewrite draw_background_rings by exact Hsz.
  eexists. split; [reflexivity | ].
  rewrite getpixel_inside by (apply in_bounds_spec; simpl; lia).
  simpl. now rewrite rings_pixel.
Qed.

(** The background discs are the first calls of [create_icon_image]. *)
Lemma create_icon_image_starts_with_discs (sz : Z) img :
  sz ∈ sizes -> create_icon_image sz = Py.Ok img ->
  exists rest,
    drawn img =
    map (fun r => ring (sz / 2) (sz / 2) r (ring_color sz r))
      (Py.range_down (sz / 2) 0) ++ rest.
Proof.
  intros Hsz H.
  apply create_icon_image_stages in H
    as (canvas & bg & i2 & i3 & i4 & Hnew & H1 & H2 & H3 & H4 & H5).
  apply new_ok in Hnew as (_ & _ & ->).
  rewrite draw_background_rings in H1 by exact Hsz.
  injection H1 as <-.
  assert (Hon : drawn_on
            (MkImage ModeRGBA (sz, sz) (RGBA 0 0 0 0)
               ([] ++ map (fun r => ring (sz / 2) (sz / 2) r (ring_color sz r))
                        (Py.range_down (sz / 2) 0))) img).
  { eapply drawn_on_trans; [eapply draw_border_drawn_on, H2 | ].
    eapply drawn_on_trans; [eapply draw_arcs_drawn_on, H3 | ].
    eapply drawn_on_trans; [eapply draw_bars_drawn_on, H4 | ].
    eapply draw_dot_drawn_on, H5. }
  destruct Hon as (_ & _ & _ & ops & Hd). simpl in Hd.
  rewrite Hd. eauto.
Qed.

(** Where no later call paints, the image shows what the earlier calls
    left. *)
Lemma pixel_after_untouched covers m x y ops p :
  untouched covers m ops x y = true -> pixel_after covers m x y ops p = p.
Proof.
  unfold untouched, pixel_after.
  generalize (concat (map (paints m) ops)) as ps.
  intros ps; revert p; induction ps as [|rc ps IH]; intros p H; simpl in *;
    [reflexivity | ].
  apply andb_true_iff in H as [Hrc Hps].
  unfold paint_pixel at 2. apply negb_true_iff in Hrc. rewrite Hrc.
  now apply IH.
Qed.

Lemma getpixel_untouched covers img bg rest x y :
  mode img = mode bg -> size img = size bg ->
  background img = background bg ->
  drawn img = drawn bg ++ rest ->
  0 <= x -> 0 <= y ->
  untouched covers (mode bg) rest x y = true ->
  getpixel covers img (x, y) = getpixel covers bg (x, y).
Proof.
  intros Hm Hs Hb Hd Hx Hy Hclear.
  rewrite !getpixel_nonneg by assumption.
  unfold in_bounds. rewrite Hs, Hm, Hb, Hd, pixel_after_app.
  now rewrite (pixel_after_untouched _ _ _ _ _ _ Hclear).
Qed.

Lemma sizes_half_pos (sz : Z) : sz ∈ sizes -> 8 <= sz / 2 <= 128.
Proof. intros Hsz. each_size Hsz; vm_compute; split; discriminate. Qed.

(** C1 (as the code has it). For every size in {16, 32, 48, 64, 128,
    256} the first calls of [create_icon_image] draw one filled disc
    per radius [r] from [size // 2] down to 1, centred at
    [(size // 2, size // 2)], largest first; the disc of radius [r] has
    each channel linearly interpolated between dark blue (20, 55, 90)
    and teal (26, 82, 118) at ratio [r / (size // 2)] and truncated.
    The gradient is teal at the edge: the largest disc, drawn first, is
    exactly teal, and a pixel only that disc covers reads teal.  It is
    near dark blue at the centre: the smallest disc, drawn last, has
    colour (20, 55 + 27 // half, 90 + 28 // half), which is dark blue
    exactly when [size >= 64], and every pixel it covers reads that
    colour. *)
Theorem background_gradient_teal_at_edge (sz : Z) :
  sz ∈ sizes ->
  exists img rest,
    create_icon_image sz = Py.Ok img /\
    drawn img =
      map (fun r => ring (sz / 2) (sz / 2) r (ring_color sz r))
        (Py.range_down (sz / 2) 0) ++ rest /\
    length (Py.range_down (sz / 2) 0) = Z.to_nat (sz / 2) /\
    (forall i : nat, (i < Z.to_nat (sz / 2))%nat ->
        Py.range_down (sz / 2) 0 !! i = Some (sz / 2 - Z.of_nat i)) /\
    (forall r, r ∈ Py.range_down (sz / 2) 0 ->
        gradient_color sz r = Py.Ok (ring_color sz r)) /\
    ring_color sz (sz / 2) = RGB 26 82 118 /\
    ring_color sz 1 = RGB 20 (55 + 27 / (sz / 2)) (90 + 28 / (sz / 2)) /\
    (ring_color sz 1 = RGB 20 55 90 <-> 64 <= sz) /\
    (forall covers x y, 0 <= x < sz -> 0 <= y < sz ->
        exists bg,
          background_layer sz = Py.Ok bg /\
          (disc_covers covers (sz / 2) (sz / 2) 1 x y = true ->
             getpixel covers bg (x, y) = Py.Ok (ink ModeRGBA (ring_color sz 1))) /\
          (disc_covers covers (sz / 2) (sz / 2) (sz / 2) x y = true ->
           (forall r, 1 <= r < sz / 2 ->
              disc_covers covers (sz / 2) (sz / 2) r x y = false) ->
             getpixel covers bg (x, y) = Py.Ok [26; 82; 118; 255])).
Proof.
  intros Hsz.
  assert (Hok : exists img, create_icon_image sz = Py.Ok img).
  { pose proof Hsz as Hsz'. each_size Hsz'; eexists; vm_compute; reflexivity. }
  destruct Hok as [img Himg].
  destruct (create_icon_image_starts_with_discs _ _ Hsz Himg) as [rest Hrest].
  pose proof (sizes_half_pos _ Hsz) as Hhalf.
  exists img, rest. split_and!.
  - exact Himg.
  - exact Hrest.
  - unfold Py.range_down. rewrite countdown_length. f_equal. lia.
  - intros i Hi. unfold Py.range_down. apply countdown_lookup. lia.
  - intros r Hr. now apply gradient_color_refines.
  - unfold ring_color. rewrite !lerp_floor_edge by lia. reflexivity.
  - pose proof Hsz as Hsz'. each_size Hsz'; reflexivity.
  - clear -Hsz. each_size Hsz;
      (split; intros H;
       [ first [lia | vm_compute in H; discriminate H]
       | first [reflexivity | lia] ]).
  - intros covers x y Hx Hy.
    destruct (background_layer_pixel covers sz x y Hsz Hx Hy) as (bg & Hbg & Hpx).
    exists bg. split; [exact Hbg | ]. rewrite Hpx. split.
    + intros Hc.
      destruct (showing_disc_countdown covers (sz / 2) (sz / 2) x y
                  (Z.to_nat (sz / 2 - 0)) (sz / 2) 1) as (r' & Hs & Hle).
      { apply countdown_elem. lia. }
      { exact Hc. }
      unfold Py.range_down. rewrite Hs.
      apply showing_disc_some in Hs as [Hin _].
      apply countdown_bounds in Hin.
      replace r' with 1 by lia. reflexivity.
    + intros Hc Hnone.
      destruct (showing_disc_countdown covers (sz / 2) (sz / 2) x y
                  (Z.to_nat (sz / 2 - 0)) (sz / 2) (sz / 2)) as (r' & Hs & Hle).
      { apply countdown_elem. lia. }
      { exact Hc. }
      unfold Py.range_down. rewrite Hs.
      apply showing_disc_some in Hs as [Hin Hc'].
      apply countdown_bounds in Hin.
      destruct (decide (r' = sz / 2)) as [-> | Hne].
      * unfold ring_color. rewrite !lerp_floor_edge by lia. reflexivity.
      * rewrite Hnone in Hc' by lia. discriminate.
Qed.

Lemma background_gradient_teal_at_edge_witness :
  16 ∈ sizes /\
  exists img, create_icon_image 16 = Py.Ok img /\
              head (drawn img) = Some (ring 8 8 8 (RGB 26 82 118)).
Proof.
  assert (H : 16 ∈ sizes) by (unfold sizes; set_solver).
  split; [exact H | ].
  destruct (background_gradient_teal_at_edge 16 H)
    as (img & rest & Himg & Hd & _).
  exists img. split; [exact Himg | ]. rewrite Hd. reflexivity.
Defined.

(** C1 as stated fails at size 16: the claim has teal at the centre
    and dark blue at the edge, but the disc of radius 8, at the edge, is
    teal, not dark blue, and the disc of radius 1, at the centre, is
    (20, 58, 93), not teal; under the example rasteriser the centre
    pixel (8, 8) of the background reads that colour and the edge pixel
    (0, 8) reads teal. *)
Lemma gradient_centre_is_not_teal :
  gradient_color 16 8 = Py.Ok (RGB 26 82 118) /\
  gradient_color 16 1 = Py.Ok (RGB 20 58 93) /\
  ~ (gradient_color 16 1 = Py.Ok (RGB 26 82 118) /\
     gradient_color 16 8 = Py.Ok (RGB 20 55 90)) /\
  (exists bg, background_layer 16 = Py.Ok bg /\
     getpixel example_covers bg (8, 8) = Py.Ok [20; 58; 93; 255] /\
     getpixel example_covers bg (0, 8) = Py.Ok [26; 82; 118; 255]).
Proof.
  split_and!.
  - vm_compute. reflexivity.
  - vm_compute. reflexivity.
  - intros [H _]. vm_compute in H. discriminate H.
  - eexists. split_and!; vm_compute; reflexivity.
Qed.

(** C2. For every size in {16, 32, 48, 64, 128, 256},
    [create_icon_image] returns an image whose first [size // 2] calls
    are the background discs, and [bg] is that image after the
    background loop alone; wherever no later call paints, the image
    reads what [bg] reads.  The blue channel of the discs is
    non-decreasing in the radius; every channel of every disc is the
    linear interpolation between (20, 55, 90) and (26, 82, 118) at
    ratio [r / half] up to truncation (it is at most the exact value
    and less than one below it); every pixel of the background that
    some disc covers reads the colour of one of the discs covering it;
    and sampling outwards, from a pixel to a pixel of the disc that
    lies at least as far out (every disc covering the outer one covers
    the inner one), the blue channel does not decrease: on the
    background, and on the image [create_icon_image] returns at
    pixels no later call paints. *)
Theorem gradient_blue_non_decreasing (sz : Z) :
  sz ∈ sizes ->
  exists img bg rest,
    create_icon_image sz = Py.Ok img /\
    background_layer sz = Py.Ok bg /\
    drawn bg = map (fun r => ring (sz / 2) (sz / 2) r (ring_color sz r))
                 (Py.range_down (sz / 2) 0) /\
    drawn img = drawn bg ++ rest /\
    (forall covers x y,
        0 <= x < sz -> 0 <= y < sz ->
        untouched covers ModeRGBA rest x y = true ->
        getpixel covers img (x, y) = getpixel covers bg (x, y)) /\
    (forall r1 r2, 1 <= r1 <= r2 -> r2 <= sz / 2 ->
        blue (ring_color sz r1) <= blue (ring_color sz r2)) /\
    (forall r, 1 <= r <= sz / 2 ->
        exists c0 c1 c2,
          gradient_color sz r = Py.Ok (RGB c0 c1 c2) /\
          sz / 2 * c0 <= 20 * (sz / 2 - r) + 26 * r < sz / 2 * (c0 + 1) /\
          sz / 2 * c1 <= 55 * (sz / 2 - r) + 82 * r < sz / 2 * (c1 + 1) /\
          sz / 2 * c2 <= 90 * (sz / 2 - r) + 118 * r < sz / 2 * (c2 + 1)) /\
    (forall covers x y r,
        0 <= x < sz -> 0 <= y < sz -> 1 <= r <= sz / 2 ->
        disc_covers covers (sz / 2) (sz / 2) r x y = true ->
        exists r',
          1 <= r' <= r /\
          disc_covers covers (sz / 2) (sz / 2) r' x y = true /\
          getpixel covers bg (x, y) = Py.Ok (ink ModeRGBA (ring_color sz r')) /\
          (untouched covers ModeRGBA rest x y = true ->
           getpixel covers img (x, y)
             = Py.Ok (ink ModeRGBA (ring_color sz r')))) /\
    (forall covers x y x' y' r,
        0 <= x < sz -> 0 <= y < sz -> 0 <= x' < sz -> 0 <= y' < sz ->
        1 <= r <= sz / 2 ->
        disc_covers covers (sz / 2) (sz / 2) r x' y' = true ->
        (forall r', 1 <= r' <= sz / 2 ->
           disc_covers covers (sz / 2) (sz / 2) r' x' y' = true ->
           disc_covers covers (sz / 2) (sz / 2) r' x y = true) ->
        exists p p',
          getpixel covers bg (x, y) = Py.Ok p /\
          getpixel covers bg (x', y') = Py.Ok p' /\
          band 2 p <= band 2 p' /\
          (untouched covers ModeRGBA rest x y = true ->
           untouched covers ModeRGBA rest x' y' = true ->
           getpixel covers img (x, y) = Py.Ok p /\
           getpixel covers img (x', y') = Py.Ok p')).
Proof.
  intros Hsz. pose proof (sizes_half_pos _ Hsz) as Hhalf.
  assert (Hok : exists img, create_icon_image sz = Py.Ok img).
  { pose proof Hsz as Hsz'. each_size Hsz'; eexists; vm_compute; reflexivity. }
  destruct Hok as [img Himg].
  destruct (create_icon_image_starts_with_discs _ _ Hsz Himg) as [rest Hrest].
  destruct (create_icon_image_drawn_on _ _ Himg) as (c & Hnew & Hon).
  apply new_ok in Hnew as (Hsz0 & _ & ->).
  destruct Hon as (Hm & Hs & Hb & _). simpl in Hm, Hs, Hb.
  assert (Hbg : background_layer sz =
            Py.Ok (MkImage ModeRGBA (sz, sz) (RGBA 0 0 0 0)
                     (map (fun r => ring (sz / 2) (sz / 2) r (ring_color sz r))
                        (Py.range_down (sz / 2) 0)))).
  { unfold background_layer. now rewrite draw_background_rings by exact Hsz. }
  set (bg := MkImage ModeRGBA (sz, sz) (RGBA 0 0 0 0)
               (map (fun r => ring (sz / 2) (sz / 2) r (ring_color sz r))
                  (Py.range_down (sz / 2) 0))) in *.
  assert (Hsame : forall covers x y,
            0 <= x < sz -> 0 <= y < sz ->
            untouched covers ModeRGBA rest x y = true ->
            getpixel covers img (x, y) = getpixel covers bg (x, y)).
  { intros covers x y Hx Hy Hclear.
    apply (getpixel_untouched covers img bg rest); try assumption; lia. }
  assert (Hpx : forall covers x y,
            0 <= x < sz -> 0 <= y < sz ->
            getpixel covers bg (x, y) =
            Py.Ok match showing_disc covers (sz / 2) (sz / 2) x y
                          (Py.range_down (sz / 2) 0) with
                  | Some r => ink ModeRGBA (ring_color sz r)
                  | None => [0; 0; 0; 0]
                  end).
  { intros covers x y Hx Hy.
    destruct (background_layer_pixel covers sz x y Hsz Hx Hy) as (bg' & Hbg' & Hp).
    rewrite Hbg in Hbg'. injection Hbg' as <-. exact Hp. }
  assert (Hmono : forall r1 r2, r1 <= r2 ->
            blue (ring_color sz r1) <= blue (ring_color sz r2)).
  { intros r1 r2 Hr. unfold ring_color, blue.
    apply lerp_floor_mono; lia. }
  assert (Hshow : forall covers x y r,
            1 <= r <= sz / 2 ->
            disc_covers covers (sz / 2) (sz / 2) r x y = true ->
            exists r',
              showing_disc covers (sz / 2) (sz / 2) x y
                (Py.range_down (sz / 2) 0) = Some r' /\
              1 <= r' <= r /\
              disc_covers covers (sz / 2) (sz / 2) r' x y = true).
  { intros covers x y r Hr Hc. unfold Py.range_down.
    destruct (showing_disc_countdown covers (sz / 2) (sz / 2) x y
                (Z.to_nat (sz / 2 - 0)) (sz / 2) r) as (r' & Hs' & Hle).
    { apply countdown_elem. lia. }
    { exact Hc. }
    exists r'. split; [exact Hs' | ].
    apply showing_disc_some in Hs' as [Hin Hc'].
    apply countdown_bounds in Hin. split; [lia | exact Hc']. }
  exists img, bg, rest. split_and!.
  - exact Himg.
  - exact Hbg.
  - reflexivity.
  - exact Hrest.
  - exact Hsame.
  - intros r1 r2 Hr1 Hr2. apply Hmono. lia.
  - intros r Hr.
    exists (lerp_floor 20 26 r (sz / 2)), (lerp_floor 55 82 r (sz / 2)),
           (lerp_floor 90 118 r (sz / 2)).
    split; [ | split_and!; apply lerp_floor_bounds; lia].
    apply gradient_color_refines; [exact Hsz | ].
    apply range_down_elem. lia.
  - intros covers x y r Hx Hy Hr Hc.
    destruct (Hshow covers x y r Hr Hc) as (r' & Hs' & Hr' & Hc').
    exists r'. split; [exact Hr' | split; [exact Hc' | split]].
    + rewrite Hpx by assumption. now rewrite Hs'.
    + intros Hclear. rewrite Hsame, Hpx by assumption. now rewrite Hs'.
  - intros covers x y x' y' r Hx Hy Hx' Hy' Hr Hc Hdeep.
    destruct (Hshow covers x' y' r Hr Hc) as (ro & Hso & Hro & Hco).
    destruct (Hshow covers x y ro) as (ri & Hsi & Hri & Hci);
      [lia | apply Hdeep; [lia | exact Hco] | ].
    eexists. eexists.
    split; [apply Hpx; assumption | ].
    split; [apply Hpx; assumption | ].
    rewrite Hsi, Hso. split.
    + unfold ring_color, ink, band. simpl. apply lerp_floor_mono; lia.
    + intros Hclear Hclear'. rewrite !Hsame by assumption.
      rewrite !Hpx by assumption. now rewrite Hsi, Hso.
Qed.

Lemma gradient_blue_non_decreasing_witness :
  16 ∈ sizes /\
  exists img p p',
    create_icon_image 16 = Py.Ok img /\
    getpixel example_covers img (6, 8) = Py.Ok p /\
    getpixel example_covers img (4, 8) = Py.Ok p' /\
    band 2 p <= band 2 p'.
Proof.
  assert (H : 16 ∈ sizes) by (unfold sizes; set_solver).
  split; [exact H | ].
  destruct (gradient_blue_non_decreasing 16 H)
    as (img & bg & rest & Himg & Hbg & Hdiscs & Hd & _ & _ & _ & _ & Hpix).
  assert (Hclear : match create_icon_image 16 with
                   | Py.Ok i =>
                       untouched example_covers ModeRGBA (drop 8 (drawn i)) 6 8
                       && untouched example_covers ModeRGBA (drop 8 (drawn i)) 4 8
                   | Py.Raise _ => false
                   end = true) by (vm_compute; reflexivity).
  rewrite Himg, Hd in Hclear.
  assert (Hlen : length (drawn bg) = 8%nat) by (rewrite Hdiscs; reflexivity).
  rewrite <- Hlen, drop_app_length in Hclear.
  apply andb_true_iff in Hclear as [Hin Hout].
  pose proof (Hpix example_covers 6 8 4 8 4) as Hw.
  change (16 / 2) with 8 in Hw.
  destruct Hw as (p & p' & _ & _ & Hle & Himgs); try lia.
  - vm_compute. reflexivity.
  - intros r' Hr' Hc. unfold disc_covers, example_covers, in_ellipse in Hc.
    apply andb_true_iff in Hc as [Hbox _].
    unfold in_box, disc_box in Hbox. simpl in Hbox.
    rewrite !andb_true_iff, !Z.leb_le in Hbox.
    assert (Hcases : r' = 4 \/ r' = 5 \/ r' = 6 \/ r' = 7 \/ r' = 8) by lia.
    destruct Hcases as [-> | [-> | [-> | [-> | ->]]]]; reflexivity.
  - destruct (Himgs Hin Hout) as [Hp Hp'].
    exists img, p, p'. auto.
Defined.

(** *** The layers of an image *)

(** The call drawn last decides every pixel it covers. *)
Lemma getpixel_last_fill covers img before xy c x y :
  drawn img = before ++ [Ellipse xy (Some c) None 1] ->
  in_bounds img x y = true ->
  covers (FilledEllipse xy) x y = true ->
  getpixel covers img (x, y) = Py.Ok (ink (mode img) c).
Proof.
  intros Hd Hin Hc. rewrite getpixel_inside by exact Hin.
  rewrite Hd, pixel_after_app.
  unfold pixel_after at 1. simpl. unfold paint_pixel. simpl.
  now rewrite Hc.
Qed.

Lemma dot_pixel covers img before xy x y :
  drawn img = before ++ [Ellipse xy (Some (RGBA 255 255 255 200)) None 1] ->
  mode img = ModeRGBA ->
  in_bounds img x y = true ->
  covers (FilledEllipse xy) x y = true ->
  getpixel covers img (x, y) = Py.Ok [255; 255; 255; 200].
Proof.
  intros Hd Hm Hin Hc.
  rewrite (getpixel_last_fill covers img before xy _ x y Hd Hin Hc).
  now rewrite Hm.
Qed.

(** A pixel reads the background or the ink of one of the calls. *)
Lemma getpixel_inks covers img x y p :
  getpixel covers img (x, y) = Py.Ok p ->
  p = ink (mode img) (background img) \/
  exists rc, rc ∈ concat (map (paints (mode img)) (drawn img)) /\
             p = ink (mode img) (snd rc).
Proof.
  unfold getpixel. cbn [fst snd].
  set (x' := from_edge (fst (size img)) x).
  set (y' := from_edge (snd (size img)) y).
  destruct (in_bounds img x' y'); [ | discriminate].
  intros [= <-]. unfold pixel_after.
  destruct (fold_paint_cases covers (mode img) x' y'
              (concat (map (paints (mode img)) (drawn img)))
              (ink (mode img) (background img))) as [-> | (rc & Hin & ->)];
    eauto.
Qed.

Lemma gradient_color_rgb size r c :
  gradient_color size r = Py.Ok c -> exists c0 c1 c2, c = RGB c0 c1 c2.
Proof.
  unfold gradient_color. intros H. bind_inv H. simpl in H.
  do 3 bind_inv H. injection H as <-. eauto.
Qed.

Lemma for_each_gradient_appends size cx cy (rs : list Z) :
  forall img img',
    Py.for_each rs (gradient_step size cx cy) img = Py.Ok img' ->
    exists discs,
      drawn img' = drawn img ++ discs /\
      Forall2 (fun r op => exists c0 c1 c2,
                 gradient_color size r = Py.Ok (RGB c0 c1 c2) /\
                 op = ring cx cy r (RGB c0 c1 c2)) rs discs.
Proof.
  induction rs as [|r rs IH]; intros img img' H; simpl in H.
  - injection H as <-. exists []. rewrite app_nil_r. split; [reflexivity | constructor].
  - apply bind_ok in H as (img1 & Hstep & H).
    unfold gradient_step in Hstep.
    apply bind_ok in Hstep as (c & Hc & Hstep).
    apply ellipse_ok in Hstep as [_ ->].
    apply IH in H as (discs & Hd & Hall).
    destruct (gradient_color_rgb _ _ _ Hc) as (c0 & c1 & c2 & ->).
    exists (ring cx cy r (RGB c0 c1 c2) :: discs). split.
    + rewrite Hd. simpl. now rewrite <- app_assoc.
    + constructor; [eauto | exact Hall].
Qed.

(** The border is drawn only from 5 pixels on: below, its box
    [[2, 2, size - 3, size - 3]] is out of order. *)
Lemma draw_border_appends size img img' :
  draw_border size img = Py.Ok img' ->
  5 <= size /\ drawn img' = drawn img ++ [border size].
Proof.
  intros H. apply ellipse_ok in H as [Hbox ->].
  apply ordered_spec in Hbox. simpl in Hbox. split; [lia | reflexivity].
Qed.

Lemma draw_border_small size img :
  size < 5 -> draw_border size img = Py.Raise Py.ValueError.
Proof.
  intros Hsz. unfold draw_border, ellipse.
  destruct (ordered (Box 2 2 (size - 3) (size - 3))) eqn:Hbox; [ | reflexivity].
  apply ordered_spec in Hbox. simpl in Hbox. lia.
Qed.

Lemma draw_arcs_appends size img img' :
  draw_arcs size (size / 2) (size / 2) img = Py.Ok img' ->
  exists inner_r outer_r,
    scaled size (Py.literal 25 2) = Py.Ok inner_r /\
    scaled size (Py.literal 35 2) = Py.Ok outer_r /\
    drawn img' = drawn img ++ arcs size inner_r outer_r.
Proof.
  intros H. unfold draw_arcs in H.
  apply bind_ok in H as (ri & Hri & H).
  apply bind_ok in H as (i1 & H1 & H).
  apply bind_ok in H as (ro & Hro & H).
  apply arc_ok in H1 as [_ ->]. apply arc_ok in H as [_ ->].
  exists ri, ro. split_and!; try assumption.
  simpl. now rewrite <- app_assoc.
Qed.

Lemma bar_step_ok bar_x bar_spacing bar_width base_y i h img img' :
  bar_step bar_x bar_spacing bar_width base_y (i, h) img = Py.Ok img' ->
  img' = draw img (bar bar_x base_y bar_width bar_spacing i h).
Proof.
  unfold bar_step. intros H. apply rectangle_ok in H as [_ ->]. reflexivity.
Qed.

Lemma draw_bars_appends size img img' :
  draw_bars size (size / 2) (size / 2) img = Py.Ok img' ->
  exists w bar_spacing base_y bar_x h0 h1 h2,
    scaled size (Py.literal 6 2) = Py.Ok w /\
    scaled size (Py.literal 8 2) = Py.Ok bar_spacing /\
    (let* t := Py.int_mul_float size (Py.literal 15 2) in
     let* s := Py.int_add_float (size / 2) t in Py.int s) = Py.Ok base_y /\
    (let* t := Py.int_mul_float size (Py.literal 12 2) in
     let* s := Py.int_sub_float (size / 2) t in Py.int s) = Py.Ok bar_x /\
    scaled size (Py.literal 12 2) = Py.Ok h0 /\
    scaled size (Py.literal 18 2) = Py.Ok h1 /\
    scaled size (Py.literal 24 2) = Py.Ok h2 /\
    drawn img' = drawn img ++
      [ bar bar_x base_y (Z.max 2 w) bar_spacing 0 h0;
        bar bar_x base_y (Z.max 2 w) bar_spacing 1 h1;
        bar bar_x base_y (Z.max 2 w) bar_spacing 2 h2 ].
Proof.
  intros H. unfold draw_bars in H.
  apply bind_ok in H as (w & Hw & H).
  apply bind_ok in H as (sp & Hsp & H).
  apply bind_ok in H as (b & Hb & H).
  apply bind_ok in H as (x & Hx & H).
  apply bind_ok in H as (h0 & Hh0 & H).
  apply bind_ok in H as (h1 & Hh1 & H).
  apply bind_ok in H as (h2 & Hh2 & H).
  unfold Py.enumerate in H. cbn [Py.enumerate_from Py.for_each] in H.
  change (0 + 1 + 1) with 2 in H. change (0 + 1) with 1 in H.
  apply bind_ok in H as (i0 & H0 & H). apply bar_step_ok in H0 as ->.
  apply bind_ok in H as (i1 & H1 & H). apply bar_step_ok in H1 as ->.
  apply bind_ok in H as (i2 & H2 & H). apply bar_step_ok in H2 as ->.
  injection H as <-.
  exists w, sp, b, x, h0, h1, h2. split_and!; try assumption.
  cbn [draw drawn]. rewrite <- !app_assoc. reflexivity.
Qed.

(** The dot step: nothing below 48 pixels, one call from 48 on. *)
Lemma draw_dot_cases size img img' :
  draw_dot size (size / 2) (size / 2) img = Py.Ok img' ->
  (size < 48 /\ img' = img) \/
  (48 <= size /\
   exists d dot_x dot_y,
     scaled size (Py.literal 6 2) = Py.Ok d /\
     (let* t := Py.int_mul_float size (Py.literal 2 1) in
      let* s := Py.int_add_float (size / 2) t in Py.int s) = Py.Ok dot_x /\
     (let* t := Py.int_mul_float size (Py.literal 25 2) in
      let* s := Py.int_sub_float (size / 2) t in Py.int s) = Py.Ok dot_y /\
     img' = draw img (dot_at dot_x dot_y (Z.max 2 d))).
Proof.
  intros H. unfold draw_dot in H. destruct (48 <=? size) eqn:Hle.
  - right. apply Z.leb_le in Hle. split; [exact Hle | ].
    apply bind_ok in H as (d & Hd & H).
    apply bind_ok in H as (dx & Hdx & H).
    apply bind_ok in H as (dy & Hdy & H).
    apply ellipse_ok in H as [_ ->].
    exists d, dx, dy. auto.
  - left. apply Z.leb_gt in Hle. injection H as <-. auto.
Qed.

Lemma draw_dot_appends size img img' :
  draw_dot size (size / 2) (size / 2) img = Py.Ok img' ->
  exists dots, drawn img' = drawn img ++ dots /\ dot_calls size dots.
Proof.
  intros H. unfold dot_calls.
  apply draw_dot_cases in H as [[Hlt ->] | (Hge & d & dx & dy & _ & _ & _ & ->)].
  - exists []. rewrite app_nil_r. split; [reflexivity | ].
    apply Z.leb_gt in Hlt. now rewrite Hlt.
  - eexists. split; [reflexivity | ].
    apply Z.leb_le in Hge. rewrite Hge. unfold dot_at. eauto.
Qed.

(** Every image [create_icon_image] returns is made of the same
    layers, bottom to top. *)
Lemma create_icon_image_layers size img :
  create_icon_image size = Py.Ok img ->
  exists discs inner_r outer_r w bar_spacing base_y bar_x h0 h1 h2 dots,
    drawn img =
      discs ++ [border size] ++ arcs size inner_r outer_r
      ++ [ bar bar_x base_y (Z.max 2 w) bar_spacing 0 h0;
           bar bar_x base_y (Z.max 2 w) bar_spacing 1 h1;
           bar bar_x base_y (Z.max 2 w) bar_spacing 2 h2 ]
      ++ dots /\
    disc_calls size discs /\
    scaled size (Py.literal 25 2) = Py.Ok inner_r /\
    scaled size (Py.literal 35 2) = Py.Ok outer_r /\
    scaled size (Py.literal 6 2) = Py.Ok w /\
    scaled size (Py.literal 8 2) = Py.Ok bar_spacing /\
    dot_calls size dots /\
    5 <= size /\
    mode img = ModeRGBA /\ PIL.size img = (size, size) /\
    background img = RGBA 0 0 0 0.
Proof.
  intros H.
  destruct (create_icon_image_drawn_on _ _ H) as (c & Hnew & Hon).
  pose proof (create_icon_image_stages _ _ H)
    as (canvas & bg & i2 & i3 & i4 & Hnew' & H1 & H2 & H3 & H4 & H5).
  rewrite Hnew in Hnew'. injection Hnew' as <-.
  apply new_ok in Hnew as (Hsize & _ & ->).
  destruct Hon as (Hm & Hs & Hb & _). simpl in Hm, Hs, Hb.
  unfold draw_background in H1.
  apply for_each_gradient_appends in H1 as (discs & Hd1 & Hdiscs).
  apply draw_border_appends in H2 as (H5px & Hd2).
  apply draw_arcs_appends in H3 as (ri & ro & Hri & Hro & Hd3).
  apply draw_bars_appends in H4
    as (w & sp & b & x & h0 & h1 & h2 & Hw & Hsp & _ & _ & _ & _ & _ & Hd4).
  apply draw_dot_appends in H5 as (dots & Hd5 & Hdots).
  exists discs, ri, ro, w, sp, b, x, h0, h1, h2, dots.
  split_and!; try assumption.
  rewrite Hd5, Hd4, Hd3, Hd2, Hd1. simpl.
  rewrite <- !app_assoc. reflexivity.
Qed.

(** The discs, the border, the arcs and the bars are not in the dot's
    colour. *)
Lemma filter_is_dot_discs size discs :
  disc_calls size discs -> List.filter is_dot discs = [].
Proof.
  unfold disc_calls. generalize (Py.range_down (size / 2) 0) as rs.
  intros rs H. induction H as [|r op rs ops (c0 & c1 & c2 & _ & ->) _ IH];
    [reflexivity | exact IH].
Qed.

Lemma filter_is_dot_layers size img :
  create_icon_image size = Py.Ok img ->
  exists before dots,
    drawn img = before ++ dots /\ List.filter is_dot before = [] /\
    dot_calls size dots.
Proof.
  intros H.
  destruct (create_icon_image_layers _ _ H)
    as (discs & ri & ro & w & sp & b & x & h0 & h1 & h2 & dots
        & Hd & Hdiscs & _ & _ & _ & _ & Hdots & _).
  eexists (discs ++ [border size] ++ arcs size ri ro ++ [_; _; _]), dots.
  rewrite <- !app_assoc. split; [exact Hd | ]. split; [ | exact Hdots].
  rewrite List.filter_app, (filter_is_dot_discs _ _ Hdiscs). reflexivity.
Qed.

(** The inks of an image [create_icon_image] returns: opaque, the
    border's, or from 48 pixels on the dot's. *)
Lemma icon_inks size img rc :
  create_icon_image size = Py.Ok img ->
  rc ∈ concat (map (paints ModeRGBA) (drawn img)) ->
  (exists r g b, ink ModeRGBA (snd rc) = [r; g; b; 255]) \/
  ink ModeRGBA (snd rc) = [255; 255; 255; 100] \/
  (48 <= size /\ ink ModeRGBA (snd rc) = [255; 255; 255; 200]).
Proof.
  intros H Hin.
  destruct (create_icon_image_layers _ _ H)
    as (discs & ri & ro & w & sp & b & bx & h0 & h1 & h2 & dots
        & Hd & Hdiscs & _ & _ & _ & _ & Hdots & _).
  rewrite Hd in Hin.
  rewrite !map_app, !concat_app in Hin.
  rewrite !elem_of_app in Hin.
  destruct Hin as [Hin | [Hin | [Hin | [Hin | Hin]]]].
  - left.
    apply list_elem_of_In, in_concat in Hin as (ps & Hps & Hrc).
    apply in_map_iff in Hps as (op & <- & Hop).
    apply list_elem_of_In in Hop.
    apply (Forall2_Forall_r _ (fun op => exists c0 c1 c2 r,
             op = ring (size / 2) (size / 2) r (RGB c0 c1 c2))) in Hdiscs.
    + rewrite Forall_forall in Hdiscs.
      destruct (Hdiscs op Hop) as (c0 & c1 & c2 & r & ->).
      cbn in Hrc. destruct Hrc as [<- | []]. cbn. eauto.
    + apply Forall_forall. intros r _ op' (c0 & c1 & c2 & _ & ->). eauto.
  - unfold border in Hin. cbn in Hin.
    destruct (Z.max 1 (size / 32) =? 0); cbn in Hin.
    + inversion Hin.
    + apply list_elem_of_singleton in Hin as ->. cbn. auto.
  - left. cbn in Hin.
    apply elem_of_cons in Hin as [-> | Hin]; [cbn; eauto | ].
    apply list_elem_of_singleton in Hin as ->. cbn. eauto.
  - left. cbn in Hin.
    apply elem_of_cons in Hin as [-> | Hin]; [cbn; eauto | ].
    apply elem_of_cons in Hin as [-> | Hin]; [cbn; eauto | ].
    apply list_elem_of_singleton in Hin as ->. cbn. eauto.
  - unfold dot_calls in Hdots. destruct (48 <=? size) eqn:Hge.
    + destruct Hdots as [dxy ->]. cbn in Hin.
      apply list_elem_of_singleton in Hin as ->. cbn.
      right; right. split; [now apply Z.leb_le | reflexivity].
    + rewrite Hdots in Hin. inversion Hin.
Qed.

(** *** Every size up to 256, by running it *)

Lemma in_seqZ_0 (n sz : Z) : 0 <= sz < n -> In sz (seqZ 0 n).
Proof. intros H. apply list_elem_of_In, elem_of_seqZ. lia. Qed.

Lemma rendered_up_to_256 : forallb render_check (seqZ 0 257) = true.
Proof. vm_cast_no_check (eq_refl true). Qed.

Lemma render_checked (sz : Z) :
  0 <= sz <= 256 ->
  (forall r, 1 <= r <= sz / 2 ->
     gradient_color sz r = Py.Ok (ring_color sz r)) /\
  (sz < 5 -> create_icon_image sz = Py.Raise Py.ValueError) /\
  (5 <= sz ->
   exists img,
     create_icon_image sz = Py.Ok img /\
     forallb (inside_or_largest_disc sz) (drawn img) = true /\
     (48 <= sz -> last (drawn img) = Some (dot sz))).
Proof.
  intros Hsz. pose proof rendered_up_to_256 as Hall.
  rewrite forallb_forall in Hall.
  specialize (Hall sz (in_seqZ_0 257 sz ltac:(lia))).
  unfold render_check in Hall.
  apply andb_true_iff in Hall as [Hcol Hrun].
  split_and!.
  - intros r Hr. rewrite forallb_forall in Hcol.
    assert (Hin : In r (Py.range_down (sz / 2) 0))
      by (apply list_elem_of_In, range_down_elem; lia).
    apply Hcol in Hin. now apply bool_decide_eq_true in Hin.
  - intros Hsmall.
    destruct (create_icon_image sz) as [img|e].
    + apply andb_true_iff in Hrun as [Hrun _].
      apply andb_true_iff in Hrun as [Hrun _].
      apply Z.leb_le in Hrun. lia.
    + apply andb_true_iff in Hrun as [_ He].
      apply bool_decide_eq_true in He. now rewrite He.
  - intros Hbig.
    destruct (create_icon_image sz) as [img|e].
    + apply andb_true_iff in Hrun as [Hrun Hdot].
      apply andb_true_iff in Hrun as [_ Hin].
      exists img. split_and!; [reflexivity | exact Hin | ].
      intros H48. apply orb_true_iff in Hdot as [Hlt | Hdot].
      * apply Z.ltb_lt in Hlt. lia.
      * now apply bool_decide_eq_true in Hdot.
    + apply andb_true_iff in Hrun as [Hrun _].
      apply Z.ltb_lt in Hrun. lia.
Qed.

(** *** Arcs, bars and dot *)

(** C8. For every size in {16, 32, 48, 64, 128, 256},
    [create_icon_image] makes exactly two arc calls, the inner one
    first: radius [int(size * 0.25)] = floor(25 size / 100) from -135
    to -45 degrees, and radius [int(size * 0.35)] = floor(35 size / 100)
    from 45 to 135 degrees, both centred at [(size // 2, size // 2)],
    both in scan blue (200, 230, 255), which is stored opaque (alpha
    255), and both of width [max(2, size // 20)]. *)
Theorem scan_arcs (sz : Z) :
  sz ∈ sizes ->
  exists img inner_r outer_r,
    create_icon_image sz = Py.Ok img /\
    scaled sz (Py.literal 25 2) = Py.Ok inner_r /\
    scaled sz (Py.literal 35 2) = Py.Ok outer_r /\
    inner_r = 25 * sz / 100 /\
    outer_r = 35 * sz / 100 /\
    List.filter is_arc (drawn img) =
      [ Arc (disc_box (sz / 2) (sz / 2) inner_r) (-135) (-45)
          (RGB 200 230 255) (Z.max 2 (sz / 20));
        Arc (disc_box (sz / 2) (sz / 2) outer_r) 45 135
          (RGB 200 230 255) (Z.max 2 (sz / 20)) ] /\
    first3 scan_color = RGB 200 230 255 /\
    ink (mode img) (RGB 200 230 255) = [200; 230; 255; 255].
Proof.
  intros Hsz.
  each_size Hsz; do 3 eexists; split_and!; vm_compute; reflexivity.
Qed.

Lemma scan_arcs_witness :
  48 ∈ sizes /\
  exists img,
    create_icon_image 48 = Py.Ok img /\
    List.filter is_arc (drawn img) =
      [ Arc (Box 12 12 36 36) (-135) (-45) (RGB 200 230 255) 2;
        Arc (Box 8 8 40 40) 45 135 (RGB 200 230 255) 2 ].
Proof.
  assert (H : 48 ∈ sizes) by (unfold sizes; set_solver).
  split; [exact H | ].
  destruct (scan_arcs 48 H)
    as (img & ri & ro & Himg & _ & _ & -> & -> & Harcs & _).
  exists img. split; [exact Himg | exact Harcs].
Defined.

(** C5. For every size in {16, 32, 48, 64, 128, 256},
    [create_icon_image] makes exactly three rectangle calls, filled with
    chart green (100, 200, 150), stored opaque: bar [i] spans
    [x = bar_x + i * bar_spacing .. + bar_width] and
    [y = base_y - h_i .. base_y], with heights
    [int(size * 0.12), int(size * 0.18), int(size * 0.24)] (the floors
    of 12, 18 and 24 hundredths of the size), width
    [max(2, int(size * 0.06))], spacing [int(size * 0.08)], left edge
    [int(cx - size * 0.12)] and baseline [int(cy + size * 0.15)].  The
    bars go left to right and their top edges strictly decrease. *)
Theorem chart_bars (sz : Z) :
  sz ∈ sizes ->
  exists img w bar_spacing base_y bar_x h0 h1 h2,
    create_icon_image sz = Py.Ok img /\
    scaled sz (Py.literal 6 2) = Py.Ok w /\
    scaled sz (Py.literal 8 2) = Py.Ok bar_spacing /\
    scaled sz (Py.literal 12 2) = Py.Ok h0 /\
    scaled sz (Py.literal 18 2) = Py.Ok h1 /\
    scaled sz (Py.literal 24 2) = Py.Ok h2 /\
    w = 6 * sz / 100 /\ bar_spacing = 8 * sz / 100 /\
    h0 = 12 * sz / 100 /\ h1 = 18 * sz / 100 /\ h2 = 24 * sz / 100 /\
    base_y = (100 * (sz / 2) + 15 * sz) / 100 /\
    bar_x = (100 * (sz / 2) - 12 * sz) / 100 /\
    List.filter is_rectangle (drawn img) =
      [ bar bar_x base_y (Z.max 2 w) bar_spacing 0 h0;
        bar bar_x base_y (Z.max 2 w) bar_spacing 1 h1;
        bar bar_x base_y (Z.max 2 w) bar_spacing 2 h2 ] /\
    first3 chart_color = RGB 100 200 150 /\
    ink (mode img) (RGB 100 200 150) = [100; 200; 150; 255] /\
    0 < bar_spacing /\
    base_y - h2 < base_y - h1 /\ base_y - h1 < base_y - h0.
Proof.
  intros Hsz.
  each_size Hsz; do 8 eexists; split_and!; vm_compute; reflexivity.
Qed.

Lemma chart_bars_witness :
  16 ∈ sizes /\
  exists img,
    create_icon_image 16 = Py.Ok img /\
    List.filter is_rectangle (drawn img) =
      [ Rectangle (Box 6 9 8 10) (Some (RGB 100 200 150)) None 1;
        Rectangle (Box 7 8 9 10) (Some (RGB 100 200 150)) None 1;
        Rectangle (Box 8 7 10 10) (Some (RGB 100 200 150)) None 1 ].
Proof.
  assert (H : 16 ∈ sizes) by (unfold sizes; set_solver).
  split; [exact H | ].
  destruct (chart_bars 16 H)
    as (img & w & sp & b & x & h0 & h1 & h2 & Himg & _ & _ & _ & _ & _
        & -> & -> & -> & -> & -> & -> & -> & Hbars & _).
  exists img. split; [exact Himg | exact Hbars].
Defined.

(** Below 48 pixels no call is in the dot's colour and no pixel reads
    it: the image is the one the bars left. *)
Lemma no_dot_below_48 sz img :
  create_icon_image sz = Py.Ok img -> sz < 48 ->
  List.filter is_dot (drawn img) = [] /\
  (exists arcs, draw_bars sz (sz / 2) (sz / 2) arcs = Py.Ok img) /\
  forall covers x y,
    getpixel covers img (x, y) <> Py.Ok [255; 255; 255; 200].
Proof.
  intros H Hlt. split_and!.
  - destruct (filter_is_dot_layers _ _ H) as (before & dots & Hd & Hnone & Hdots).
    unfold dot_calls in Hdots.
    apply Z.leb_gt in Hlt. rewrite Hlt in Hdots.
    now rewrite Hd, Hdots, app_nil_r.
  - pose proof (create_icon_image_stages _ _ H)
      as (canvas & bg & i2 & arcs & bars & _ & _ & _ & _ & Hbars & Hdot).
    apply draw_dot_cases in Hdot as [[_ ->] | [Hge _]]; [eauto | lia].
  - intros covers x y Hp.
    destruct (create_icon_image_layers _ _ H)
      as (_ & _ & _ & _ & _ & _ & _ & _ & _ & _ & _
          & _ & _ & _ & _ & _ & _ & _ & _ & Hm & _ & Hb).
    apply getpixel_inks in Hp as [Hp | (rc & Hin & Hp)]; rewrite Hm in *.
    + rewrite Hb in Hp. discriminate Hp.
    + destruct (icon_inks _ _ _ H Hin)
        as [(r & g & b & Hrc) | [Hrc | [Hge _]]];
        [rewrite Hrc in Hp; discriminate Hp
        | rewrite Hrc in Hp; discriminate Hp | lia].
Qed.

(** From 48 pixels on the dot is the last call, the only one in its
    colour, and every pixel its filled ellipse covers reads it. *)
Lemma dot_drawn_from_48 sz img :
  create_icon_image sz = Py.Ok img -> 48 <= sz ->
  exists before d dot_x dot_y,
    scaled sz (Py.literal 6 2) = Py.Ok d /\
    (let* t := Py.int_mul_float sz (Py.literal 2 1) in
     let* s := Py.int_add_float (sz / 2) t in Py.int s) = Py.Ok dot_x /\
    (let* t := Py.int_mul_float sz (Py.literal 25 2) in
     let* s := Py.int_sub_float (sz / 2) t in Py.int s) = Py.Ok dot_y /\
    drawn img = before ++ [dot_at dot_x dot_y (Z.max 2 d)] /\
    List.filter is_dot (drawn img) = [dot_at dot_x dot_y (Z.max 2 d)] /\
    forall covers x y,
      0 <= x < sz -> 0 <= y < sz ->
      covers (FilledEllipse
                (Box dot_x dot_y (dot_x + Z.max 2 d) (dot_y + Z.max 2 d))) x y
        = true ->
      getpixel covers img (x, y) = Py.Ok [255; 255; 255; 200].
Proof.
  intros H Hge.
  pose proof (create_icon_image_stages _ _ H)
    as (canvas & bg & i2 & arcs & bars & _ & _ & _ & _ & _ & Hdot).
  apply draw_dot_cases in Hdot
    as [[Hlt _] | (_ & d & dx & dy & Hd & Hdx & Hdy & Himg)]; [lia | ].
  assert (Hdrawn : drawn img = drawn bars ++ [dot_at dx dy (Z.max 2 d)])
    by now rewrite Himg.
  destruct (filter_is_dot_layers _ _ H) as (before & dots & Hsplit & Hnone & Hdots).
  unfold dot_calls in Hdots.
  pose proof Hge as Hge'. apply Z.leb_le in Hge'. rewrite Hge' in Hdots.
  destruct Hdots as [xy ->].
  rewrite Hdrawn in Hsplit. apply app_inj_tail in Hsplit as [<- _].
  destruct (create_icon_image_layers _ _ H)
    as (_ & _ & _ & _ & _ & _ & _ & _ & _ & _ & _
        & _ & _ & _ & _ & _ & _ & _ & _ & Hm & Hs & _).
  exists (drawn bars), d, dx, dy. split_and!; try assumption.
  - rewrite Hdrawn, List.filter_app, Hnone. reflexivity.
  - intros covers x y Hx Hy Hc.
    apply (dot_pixel covers img (drawn bars) _ x y Hdrawn Hm); [ | exact Hc].
    apply in_bounds_spec. rewrite Hs. simpl. lia.
Qed.

(** C4 (as the code has it). [create_icon_image] draws the accent dot
    exactly when [size >= 48].  Below 48, whatever the size, no call of
    the image it returns is in the dot's colour, the image is the one
    the bars left, and no pixel at all reads the dot's colour (what the
    pixel at the computed dot centre reads instead is left to the
    earlier steps).  From 48 on, whatever the size, the last call is
    one filled ellipse in translucent white (255, 255, 255, 200) whose
    box has side [max(2, int(size * 0.06))] and top-left corner
    [(int(cx + size * 0.2), int(cy - size * 0.25))]; it is the only
    call in that colour and every pixel its filled ellipse covers
    reads (255, 255, 255, 200), white and not transparent.  For every
    size from 48 to 256 (so at 48, 64, 128 and 256) the image is
    returned, the lengths are the integer floors, the box lies up and
    right of the centre and the pixel at the centre of the box reads
    the dot's colour as soon as the filled ellipse covers its own
    centre; for every size from 5 to 47 (so at 16 and 32) the image is
    returned and has no dot. *)
Theorem accent_dot_from_48 :
  (forall sz img,
      create_icon_image sz = Py.Ok img -> sz < 48 ->
      List.filter is_dot (drawn img) = [] /\
      (exists arcs, draw_bars sz (sz / 2) (sz / 2) arcs = Py.Ok img) /\
      forall covers x y,
        getpixel covers img (x, y) <> Py.Ok [255; 255; 255; 200]) /\
  (forall sz img,
      create_icon_image sz = Py.Ok img -> 48 <= sz ->
      exists before d dot_x dot_y,
        scaled sz (Py.literal 6 2) = Py.Ok d /\
        (let* t := Py.int_mul_float sz (Py.literal 2 1) in
         let* s := Py.int_add_float (sz / 2) t in Py.int s) = Py.Ok dot_x /\
        (let* t := Py.int_mul_float sz (Py.literal 25 2) in
         let* s := Py.int_sub_float (sz / 2) t in Py.int s) = Py.Ok dot_y /\
        drawn img = before ++ [dot_at dot_x dot_y (Z.max 2 d)] /\
        List.filter is_dot (drawn img) = [dot_at dot_x dot_y (Z.max 2 d)] /\
        forall covers x y,
          0 <= x < sz -> 0 <= y < sz ->
          covers (FilledEllipse
                    (Box dot_x dot_y (dot_x + Z.max 2 d) (dot_y + Z.max 2 d)))
            x y = true ->
          getpixel covers img (x, y) = Py.Ok [255; 255; 255; 200]) /\
  (forall sz, 48 <= sz <= 256 ->
      exists img before xy,
        create_icon_image sz = Py.Ok img /\
        dot sz = Ellipse xy (Some (RGBA 255 255 255 200)) None 1 /\
        drawn img = before ++ [dot sz] /\
        List.filter is_dot (drawn img) = [dot sz] /\
        sz / 2 < x0 xy /\ y0 xy < sz / 2 /\
        forall covers,
          covers (FilledEllipse xy) ((x0 xy + x1 xy) / 2) ((y0 xy + y1 xy) / 2)
            = true ->
          getpixel covers img ((x0 xy + x1 xy) / 2, (y0 xy + y1 xy) / 2)
            = Py.Ok [255; 255; 255; 200]) /\
  (forall sz, 5 <= sz < 48 ->
      exists img arcs,
        create_icon_image sz = Py.Ok img /\
        draw_bars sz (sz / 2) (sz / 2) arcs = Py.Ok img /\
        List.filter is_dot (drawn img) = [] /\
        forall covers x y,
          getpixel covers img (x, y) <> Py.Ok [255; 255; 255; 200]).
Proof.
  split_and!.
  - intros sz img H Hlt. now apply no_dot_below_48.
  - intros sz img H Hge. now apply dot_drawn_from_48.
  - intros sz Hsz.
    destruct (render_checked sz ltac:(lia)) as (_ & _ & Hrun).
    destruct (Hrun ltac:(lia)) as (img & Himg & Hin & Hlast).
    specialize (Hlast ltac:(lia)).
    destruct (dot_drawn_from_48 sz img Himg ltac:(lia))
      as (before & d & dx & dy & _ & _ & _ & Hd & Hf & Hpx).
    assert (Hdot : dot_at dx dy (Z.max 2 d) = dot sz).
    { rewrite Hd, last_snoc in Hlast. now apply (inj Some) in Hlast. }
    rewrite Hdot in Hd, Hf.
    set (xy := Box ((10 * (sz / 2) + 2 * sz) / 10)
                   ((100 * (sz / 2) - 25 * sz) / 100)
                   ((10 * (sz / 2) + 2 * sz) / 10 + Z.max 2 (6 * sz / 100))
                   ((100 * (sz / 2) - 25 * sz) / 100 + Z.max 2 (6 * sz / 100))).
    assert (Hxy : dot sz = Ellipse xy (Some (RGBA 255 255 255 200)) None 1)
      by reflexivity.
    assert (Hinside : box_inside sz xy = true).
    { rewrite forallb_forall in Hin.
      assert (Hop : In (dot sz) (drawn img)).
      { rewrite Hd. apply in_or_app. right. now left. }
      apply Hin in Hop. unfold inside_or_largest_disc in Hop.
      apply orb_true_iff in Hop as [Hop | Hop]; [now rewrite Hxy in Hop | ].
      apply andb_true_iff in Hop as [_ Hop].
      apply bool_decide_eq_true in Hop. discriminate Hop. }
    unfold box_inside in Hinside.
    rewrite !andb_true_iff, !Z.leb_le, !Z.ltb_lt in Hinside.
    exists img, before, xy. split_and!; try assumption.
    + assert (Hx : sz / 2 + 1 <= (10 * (sz / 2) + 2 * sz) / 10)
        by (apply Z.div_le_lower_bound; lia).
      unfold xy. simpl. lia.
    + unfold xy. simpl. apply Z.div_lt_upper_bound; lia.
    + intros covers Hc.
      assert (Hbox : Box dx dy (dx + Z.max 2 d) (dy + Z.max 2 d) = xy)
        by exact (f_equal box_of Hdot).
      rewrite Hbox in Hpx. apply Hpx; [ | | exact Hc].
      * split.
        -- apply Z.div_le_lower_bound; lia.
        -- apply Z.div_lt_upper_bound; lia.
      * split.
        -- apply Z.div_le_lower_bound; lia.
        -- apply Z.div_lt_upper_bound; lia.
  - intros sz Hsz.
    destruct (render_checked sz ltac:(lia)) as (_ & _ & Hrun).
    destruct (Hrun ltac:(lia)) as (img & Himg & _).
    destruct (no_dot_below_48 sz img Himg ltac:(lia))
      as (Hnone & [arcs Hbars] & Hpx).
    exists img, arcs. auto.
Qed.

(** C4 as stated fails at size 16: no dot is drawn, yet the pixel at
    the computed dot centre, (12, 5) for the box [11, 4, 13, 6], is not
    background-coloured.  With pixel-centre rasterisation it lies on the
    border ring ([2, 2, 13, 13], width 1: centre (7.5, 7.5), radius
    5.5, distance 5.15) and reads (255, 255, 255, 100), white and not
    transparent, which none of the background discs has; at size 32
    the pixel at (23, 9) does read a disc colour. *)
Lemma dot_centre_on_border_at_16 :
  exists img,
    create_icon_image 16 = Py.Ok img /\
    List.filter is_dot (drawn img) = [] /\
    (Z.max 2 (6 * 16 / 100) = 2 /\
     (10 * (16 / 2) + 2 * 16) / 10 + 2 / 2 = 12 /\
     (100 * (16 / 2) - 25 * 16) / 100 + 2 / 2 = 5) /\
    example_covers (EllipseOutline (Box 2 2 13 13) 1) 12 5 = true /\
    getpixel example_covers img (12, 5) = Py.Ok [255; 255; 255; 100] /\
    Forall (fun r => ink ModeRGBA (ring_color 16 r) <> [255; 255; 255; 100])
      (Py.range_down (16 / 2) 0) /\
    exists img32,
      create_icon_image 32 = Py.Ok img32 /\
      getpixel example_covers img32 (23, 9)
        = Py.Ok (ink ModeRGBA (ring_color 32 10)).
Proof.
  eexists. split_and!; try (vm_compute; reflexivity).
  - apply (bool_decide_unpack _). vm_compute. exact I.
  - eexists. split; vm_compute; reflexivity.
Qed.

Lemma accent_dot_from_48_witness :
  exists img,
    create_icon_image 48 = Py.Ok img /\
    getpixel example_covers img (34, 13) = Py.Ok [255; 255; 255; 200].
Proof.
  destruct accent_dot_from_48 as (_ & _ & Hbig & _).
  destruct (Hbig 48 ltac:(lia))
    as (img & before & xy & Himg & Hxy & _ & _ & _ & _ & Hpx).
  exists img. split; [exact Himg | ].
  injection Hxy as <-. apply Hpx. vm_compute. reflexivity.
Defined.

(** *** The ICO container *)

(** The writer stores no frame larger than the image [save] is called
    on, whatever is appended. *)
Lemma ico_frames_within_base im requested append_images f :
  f ∈ ico_frames im requested append_images ->
  fst (frame_size f) <= fst (size im) /\ snd (frame_size f) <= snd (size im).
Proof.
  unfold ico_frames. intros Hf.
  apply list_elem_of_In, in_concat in Hf as (fs & Hfs & Hf).
  apply in_map_iff in Hfs as (sz & <- & _).
  unfold ico_frame in Hf. destruct (size im) as [width height] eqn:Hsize.
  destruct ((width <? fst sz) || (height <? snd sz)
            || (256 <? fst sz) || (256 <? snd sz)) eqn:Hskip;
    [inversion Hf | ].
  rewrite !orb_false_iff in Hskip.
  destruct Hskip as [[[Hw Hh] _] _].
  apply Z.ltb_ge in Hw, Hh.
  destruct (List.find _ _) as [p|] eqn:Hfind.
  - apply find_some in Hfind as [_ Heq]. unfold size_eqb in Heq.
    apply andb_true_iff in Heq as [H1 H2].
    apply Z.eqb_eq in H1, H2.
    destruct Hf as [<- | []]. simpl. lia.
  - destruct Hf as [<- | []]. simpl. lia.
Qed.

(** What the render loop of [create_ico_file] produces. *)
Lemma rendered_images :
  exists first rest preview,
    render_images sizes = Py.Ok (first :: rest) /\
    map size (first :: rest) = map (fun s => (s, s)) sizes /\
    create_icon_image 16 = Py.Ok first /\
    create_icon_image 256 = Py.Ok preview /\
    (first :: rest) !! 5%nat = Some preview /\
    ico_frames first (map (fun s => (s, s)) sizes) rest = [Provided first].
Proof. do 3 eexists. split_and!; vm_compute; reflexivity. Qed.

(** *** Files *)

Lemma write_file_ok p c w w' :
  write_file p c w = Py.Ok w' ->
  is_dir w (removelast p) = true /\ is_dir w p = false /\ allowed w p /\
  w' = MkWorld (<[p := File c]> (files w)) (stdout w) (denied w).
Proof.
  unfold write_file, allowed.
  destruct (path_exists w (removelast p)); simpl; [ | discriminate].
  destruct (is_dir w (removelast p)); simpl; [ | discriminate].
  destruct (is_dir w p); [discriminate | ].
  destruct (denied w !! p); [discriminate | ].
  intros [= <-]. auto.
Qed.

Lemma is_dir_exists w p : is_dir w p = true -> path_exists w p = true.
Proof.
  unfold is_dir, path_exists. destruct p; [reflexivity | ].
  destruct (files w !! _) as [[|c]|]; congruence.
Qed.

Lemma write_file_run p c w :
  is_dir w (removelast p) = true -> is_dir w p = false -> allowed w p ->
  write_file p c w =
  Py.Ok (MkWorld (<[p := File c]> (files w)) (stdout w) (denied w)).
Proof.
  intros H1 H2 H3. unfold write_file.
  now rewrite (is_dir_exists _ _ H1), H1, H2, H3.
Qed.

(** The container is written when the file can be and a frame is
    kept. *)
Lemma save_ico_ok im p sizes append_images w w' :
  save_ico im p sizes append_images w = Py.Ok w' ->
  write_file p (IcoFile (ico_frames im sizes append_images)) w = Py.Ok w' /\
  ico_frames im sizes append_images <> [].
Proof.
  unfold save_ico. cbv zeta. intros H.
  apply bind_ok in H as (w0 & Hw & H).
  destruct (ico_frames im sizes append_images); [discriminate H | ].
  injection H as <-. split; [exact Hw | discriminate].
Qed.

Lemma save_ico_frames im p sizes append_images w f fs :
  ico_frames im sizes append_images = f :: fs ->
  save_ico im p sizes append_images w = write_file p (IcoFile (f :: fs)) w.
Proof.
  intros H. unfold save_ico. rewrite H. cbv zeta.
  now destruct (write_file p (IcoFile (f :: fs)) w).
Qed.

Lemma join_nonempty dir name : join dir name <> [].
Proof. unfold join. destruct dir; discriminate. Qed.

Lemma removelast_join dir name : removelast (join dir name) = dir.
Proof. apply removelast_last. Qed.

Lemma is_dir_join w dir name :
  is_dir w (join dir name) =
  match files w !! join dir name with Some Dir => true | _ => false end.
Proof.
  unfold is_dir. pose proof (join_nonempty dir name).
  destruct (join dir name); [congruence | reflexivity].
Qed.

Lemma path_exists_join w dir name :
  path_exists w (join dir name) =
  match files w !! join dir name with Some _ => true | None => false end.
Proof.
  unfold path_exists. pose proof (join_nonempty dir name).
  destruct (join dir name); [congruence | reflexivity].
Qed.

Lemma extends_refl w : extends w w.
Proof. repeat split; auto. Qed.

Lemma extends_trans a b c : extends a b -> extends b c -> extends a c.
Proof.
  intros (Ho & Hd & H) (Ho' & Hd' & H').
  split; [congruence | split; [congruence | auto]].
Qed.

Lemma extends_is_dir w w' p :
  extends w w' -> is_dir w p = true -> is_dir w' p = true.
Proof.
  intros (_ & _ & H). unfold is_dir. destruct p as [|c0 p]; [reflexivity | ].
  destruct (files w !! (c0 :: p)) as [[|c]|] eqn:Hq; try discriminate.
  intros _. now rewrite (H _ _ Hq).
Qed.

Lemma extends_exists w w' p :
  extends w w' -> path_exists w p = true -> path_exists w' p = true.
Proof.
  intros (_ & _ & H). unfold path_exists. destruct p as [|c0 p]; [reflexivity | ].
  destruct (files w !! (c0 :: p)) as [node|] eqn:Hq; try discriminate.
  intros _. now rewrite (H _ _ Hq).
Qed.

Lemma mkdir_ok p w w' :
  mkdir p w = Py.Ok w' ->
  path_exists w p = false /\ is_dir w (removelast p) = true /\
  allowed w p /\
  w' = MkWorld (<[p := Dir]> (files w)) (stdout w) (denied w).
Proof.
  unfold mkdir, allowed. destruct (path_exists w p); [discriminate | ].
  destruct (is_dir w (removelast p)).
  - destruct (denied w !! p); [discriminate | ]. intros [= <-]. auto.
  - destruct (path_exists w (removelast p)); discriminate.
Qed.

Lemma mkdir_exist_ok_spec p w w' :
  mkdir_exist_ok p w = Py.Ok w' -> extends w w' /\ is_dir w' p = true.
Proof.
  unfold mkdir_exist_ok. destruct (mkdir p w) as [w1|e] eqn:Hmk.
  - intros [= <-]. apply mkdir_ok in Hmk as (Hnew & _ & _ & ->).
    unfold path_exists in Hnew. destruct p as [|c p]; [discriminate | ].
    destruct (files w !! (c :: p)) eqn:Hp; [discriminate | ].
    split; [split; [reflexivity | split; [reflexivity | ]] | ].
    + intros q node Hq. simpl. rewrite lookup_insert_ne; [exact Hq | congruence].
    + unfold is_dir. simpl. now rewrite lookup_insert_eq.
  - destruct (is_dir w p) eqn:Hd; [ | discriminate].
    intros [= <-]. split; [apply extends_refl | exact Hd].
Qed.

(** A successful [makedirs] only adds entries, and leaves the path a
    directory whose parent exists. *)
Lemma makedirs_rev_ok name w w' :
  makedirs_rev name w = Py.Ok w' ->
  extends w w' /\ is_dir w' (rev name) = true /\
  path_exists w' (removelast (rev name)) = true.
Proof.
  revert w w'; induction name as [|tail head IH]; intros w w' H; simpl in H.
  - apply mkdir_exist_ok_spec in H as [Hext Hd]. auto.
  - apply bind_ok in H as (w1 & Hhead & H).
    apply mkdir_exist_ok_spec in H as [Hext Hd].
    simpl rev. rewrite removelast_last.
    assert (Hw1 : extends w w1 /\ path_exists w1 (rev head) = true).
    { destruct head as [|c head'] eqn:Hh.
      - injection Hhead as <-. split; [apply extends_refl | reflexivity].
      - rewrite <- Hh in *. clear Hh.
        destruct (path_exists w (rev head)) eqn:Hex.
        + injection Hhead as <-. split; [apply extends_refl | exact Hex].
        + apply IH in Hhead as (Hext1 & Hd1 & _).
          split; [exact Hext1 | now apply is_dir_exists]. }
    destruct Hw1 as [Hext1 Hex1].
    split_and!.
    + eapply extends_trans; eassumption.
    + exact Hd.
    + eapply extends_exists; eassumption.
Qed.

Lemma makedirs_ok p w w' :
  makedirs p w = Py.Ok w' ->
  extends w w' /\ is_dir w' p = true /\
  path_exists w' (removelast p) = true.
Proof.
  unfold makedirs. intros H. apply makedirs_rev_ok in H.
  now rewrite rev_involutive in H.
Qed.

(** On a directory whose parent exists, [makedirs] changes nothing. *)
Lemma makedirs_noop dir name w :
  is_dir w (join dir name) = true -> path_exists w dir = true ->
  makedirs (join dir name) w = Py.Ok w.
Proof.
  intros Hd Hex. unfold makedirs, join. rewrite rev_unit. simpl.
  rewrite rev_involutive.
  assert (Hhead : (match rev dir with
                   | [] => Py.Ok w
                   | _ => if path_exists w dir then Py.Ok w
                          else makedirs_rev (rev dir) w
                   end) = Py.Ok w).
  { destruct (rev dir); [reflexivity | now rewrite Hex]. }
  rewrite Hhead. cbn [Py.bind].
  unfold mkdir_exist_ok, mkdir. fold (join dir name).
  now rewrite (is_dir_exists _ _ Hd), Hd.
Qed.

Lemma ico_path_ne_preview_path dir : ico_path dir <> preview_path dir.
Proof.
  unfold ico_path, preview_path, join. intros H.
  apply app_inj_tail in H as [_ H]. discriminate H.
Qed.

Lemma join_longer dir name q :
  (length q <= length dir)%nat -> join dir name <> q.
Proof.
  intros Hlen <-. unfold join in Hlen. rewrite length_app in Hlen.
  simpl in Hlen. lia.
Qed.

(** Writing a file leaves the directories elsewhere alone. *)
Lemma insert_file_is_dir w p c out dn q :
  p <> q ->
  is_dir (MkWorld (<[p := File c]> (files w)) out dn) q = is_dir w q.
Proof.
  intros Hne. unfold is_dir. simpl. now rewrite lookup_insert_ne.
Qed.

(** Whether a path is there, and as what, depends on its entry alone. *)
Lemma is_dir_same w w' p :
  files w' !! p = files w !! p -> is_dir w' p = is_dir w p.
Proof. intros H. unfold is_dir. destruct p; [reflexivity | now rewrite H]. Qed.

Lemma path_exists_same w w' p :
  files w' !! p = files w !! p -> path_exists w' p = path_exists w p.
Proof.
  intros H. unfold path_exists. destruct p; [reflexivity | now rewrite H].
Qed.

(** What a successful run leaves behind. *)
Lemma main_ok dir w w' :
  main dir w = Py.Ok w' ->
  exists wa first rest preview,
    makedirs (resources_dir dir) w = Py.Ok wa /\
    render_images sizes = Py.Ok (first :: rest) /\
    create_icon_image 256 = Py.Ok preview /\
    files w' =
      <[preview_path dir := File (PngFile preview)]>
        (<[ico_path dir :=
             File (IcoFile (ico_frames first (map (fun s => (s, s)) sizes) rest))]>
           (files wa)).
Proof.
  intros H. unfold main in H.
  apply bind_ok in H as (wa & Hmk & H).
  apply bind_ok in H as (wb & Hico & H).
  apply bind_ok in H as (preview & Hprev & H).
  apply bind_ok in H as (wc & Hpng & H).
  injection H as <-.
  unfold create_ico_file in Hico.
  apply bind_ok in Hico as (images & Himgs & Hico).
  destruct images as [|first rest]; [discriminate Hico | ].
  apply bind_ok in Hico as (wb0 & Hsave & Hico).
  injection Hico as <-.
  apply save_ico_ok in Hsave as [Hsave _].
  apply write_file_ok in Hsave as (_ & _ & _ & ->).
  apply write_file_ok in Hpng as (_ & _ & _ & ->).
  exists wa, first, rest, preview. auto.
Qed.

(** The render loop calls [create_icon_image] once per size, in order. *)
Lemma for_each_render (l : list Z) :
  forall acc images,
    Py.for_each l render_step acc = Py.Ok images ->
    exists new_images,
      images = acc ++ new_images /\
      Forall2 (fun s img => create_icon_image s = Py.Ok img) l new_images.
Proof.
  induction l as [|s l IH]; intros acc images H; simpl in H.
  - injection H as <-. exists []. rewrite app_nil_r. split; [reflexivity | constructor].
  - apply bind_ok in H as (acc' & Hstep & H).
    unfold render_step in Hstep.
    apply bind_ok in Hstep as (img & Himg & Hstep). injection Hstep as <-.
    apply IH in H as (more & -> & Hmore).
    exists (img :: more). split; [now rewrite <- app_assoc | ].
    now constructor.
Qed.

Lemma render_images_spec (l : list Z) images :
  render_images l = Py.Ok images ->
  Forall2 (fun s img => create_icon_image s = Py.Ok img) l images.
Proof.
  intros H. apply for_each_render in H as (imgs & -> & H). exact H.
Qed.

Lemma bind_ext {A B : Type} (m : Py.result A) (k k' : A -> Py.result B) :
  (forall a, k a = k' a) -> Py.bind m k = Py.bind m k'.
Proof. intros H. destruct m; [apply H | reflexivity]. Qed.

Lemma bind_assoc {A B C : Type} (m : Py.result A) (f : A -> Py.result B)
    (g : B -> Py.result C) :
  Py.bind (Py.bind m f) g = Py.bind m (fun a => Py.bind (f a) g).
Proof. now destruct m. Qed.


(** [main], with the rendering done: one [makedirs], two files, two
    lines. *)
Lemma main_steps dir w :
  exists first preview,
    create_icon_image 16 = Py.Ok first /\
    create_icon_image 256 = Py.Ok preview /\
    main dir w =
      (let* wa := makedirs (resources_dir dir) w in
       let* wb := write_file (ico_path dir) (IcoFile [Provided first]) wa in
       let* wc := write_file (preview_path dir) (PngFile preview)
                    (print (icon_line dir) wb) in
       Py.Ok (print (preview_line dir) wc)).
Proof.
  destruct rendered_images
    as (first & rest & preview & Hrender & _ & H16 & H256 & _ & Hframes).
  exists first, preview. split_and!; [exact H16 | exact H256 | ].
  unfold main. cbv zeta.
  change (join dir "Resources") with (resources_dir dir).
  change (join (resources_dir dir) "app.ico") with (ico_path dir).
  change (join (resources_dir dir) "app_preview.png") with (preview_path dir).
  apply bind_ext. intros wa.
  unfold create_ico_file. rewrite Hrender. cbn [Py.bind].
  rewrite (save_ico_frames _ _ _ _ _ _ _ Hframes), bind_assoc.
  apply bind_ext. intros wb.
  cbn [Py.bind]. rewrite H256. reflexivity.
Qed.

Lemma removelast_ico_path dir : removelast (ico_path dir) = resources_dir dir.
Proof. apply removelast_join. Qed.

Lemma removelast_preview_path dir :
  removelast (preview_path dir) = resources_dir dir.
Proof. apply removelast_join. Qed.

(** What a successful run went through. *)
Lemma main_ok_steps dir w w' :
  main dir w = Py.Ok w' ->
  exists first preview wa,
    create_icon_image 16 = Py.Ok first /\
    create_icon_image 256 = Py.Ok preview /\
    makedirs (resources_dir dir) w = Py.Ok wa /\
    is_dir wa (resources_dir dir) = true /\
    is_dir wa (ico_path dir) = false /\
    is_dir wa (preview_path dir) = false /\
    allowed wa (ico_path dir) /\ allowed wa (preview_path dir) /\
    w' = MkWorld
           (<[preview_path dir := File (PngFile preview)]>
              (<[ico_path dir := File (IcoFile [Provided first])]> (files wa)))
           (stdout wa ++ [icon_line dir; preview_line dir])
           (denied wa).
Proof.
  intros H.
  destruct (main_steps dir w) as (first & preview & H16 & H256 & Hmain).
  rewrite Hmain in H. clear Hmain.
  apply bind_ok in H as (wa & Hmk & H).
  apply bind_ok in H as (wb & Hico & H).
  apply bind_ok in H as (wc & Hpng & H).
  injection H as <-.
  apply write_file_ok in Hico as (Hpar & Hnodir & Hallow & ->).
  apply write_file_ok in Hpng as (_ & Hnodir' & Hallow' & ->).
  exists first, preview, wa. split_and!; try assumption.
  - now rewrite removelast_ico_path in Hpar.
  - unfold print in Hnodir'. cbn [files stdout] in Hnodir'.
    rewrite insert_file_is_dir in Hnodir' by apply ico_path_ne_preview_path.
    exact Hnodir'.
  - unfold print. cbn [files stdout denied]. now rewrite <- app_assoc.
Qed.

(** C6 (what the code does). [create_ico_file] renders one image per
    size of [16, 32, 48, 64, 128, 256], in that order, and hands all
    six to one [save] call with the six sizes; but it calls [save] on
    the first image, which is 16 x 16, and the ICO writer ignores every
    requested size larger than the image it is called on (no frame of
    a container saved from that image exceeds 16 x 16, whatever is
    requested or appended): the container written at [output_path]
    holds exactly one frame, the 16 x 16 one, not six. *)
Theorem ico_container_holds_one_frame :
  exists first rest,
    render_images sizes = Py.Ok (first :: rest) /\
    Forall2 (fun s img => create_icon_image s = Py.Ok img) sizes (first :: rest) /\
    map size (first :: rest) =
      [(16, 16); (32, 32); (48, 48); (64, 64); (128, 128); (256, 256)] /\
    ico_frames first (map (fun s => (s, s)) sizes) rest = [Provided first] /\
    (forall requested append_images f,
        f ∈ ico_frames first requested append_images ->
        fst (frame_size f) <= 16 /\ snd (frame_size f) <= 16) /\
    (forall output_path w w',
        create_ico_file output_path w = Py.Ok w' ->
        exists frames,
          files w' !! output_path = Some (File (IcoFile frames)) /\
          map frame_size frames = [(16, 16)] /\
          length frames = 1%nat).
Proof.
  destruct rendered_images
    as (first & rest & preview & Hrender & Hsizes & H16 & _ & _ & Hframes).
  exists first, rest. split_and!.
  - exact Hrender.
  - now apply render_images_spec.
  - exact Hsizes.
  - exact Hframes.
  - intros requested append_images f Hf.
    apply ico_frames_within_base in Hf.
    injection Hsizes as Hs _. now rewrite Hs in Hf.
  - intros output_path w w' H. unfold create_ico_file in H.
    rewrite Hrender in H. cbn [Py.bind] in H.
    apply bind_ok in H as (w0 & Hsave & H). injection H as <-.
    rewrite (save_ico_frames _ _ _ _ _ _ _ Hframes) in Hsave.
    apply write_file_ok in Hsave as (_ & _ & _ & ->).
    exists [Provided first]. simpl. rewrite lookup_insert_eq.
    split_and!; try reflexivity.
    injection Hsizes as Hs _. now rewrite Hs.
Qed.

(** A run succeeds as soon as the directory can be made and neither
    output path is a directory. *)
Lemma main_run dir w wa first rest preview :
  makedirs (resources_dir dir) w = Py.Ok wa ->
  render_images sizes = Py.Ok (first :: rest) ->
  create_icon_image 256 = Py.Ok preview ->
  files wa !! ico_path dir <> Some Dir ->
  files wa !! preview_path dir <> Some Dir ->
  allowed wa (ico_path dir) -> allowed wa (preview_path dir) ->
  exists w',
    main dir w = Py.Ok w' /\
    files w' =
      <[preview_path dir := File (PngFile preview)]>
        (<[ico_path dir :=
             File (IcoFile (ico_frames first (map (fun s => (s, s)) sizes) rest))]>
           (files wa)).
Proof.
  intros Hmk Hrender H256 Hico Hpng Hico_ok Hpng_ok.
  pose proof (makedirs_ok _ _ _ Hmk) as (_ & Hres & _).
  destruct rendered_images
    as (first' & rest' & preview' & Hrender' & _ & _ & _ & _ & Hframes).
  rewrite Hrender in Hrender'. injection Hrender' as <- <-.
  assert (Hnodir : forall w0 name,
            files w0 !! join (resources_dir dir) name <> Some Dir ->
            is_dir w0 (join (resources_dir dir) name) = false).
  { intros w0 name H0. rewrite is_dir_join.
    destruct (files w0 !! join (resources_dir dir) name) as [[|c]|];
      congruence. }
  unfold main. cbv zeta.
  change (join dir "Resources") with (resources_dir dir).
  rewrite Hmk. cbn [Py.bind].
  unfold create_ico_file. rewrite Hrender. cbn [Py.bind].
  rewrite (save_ico_frames _ _ _ _ _ _ _ Hframes), <- Hframes.
  rewrite write_file_run; cycle 1.
  { now rewrite removelast_join. }
  { now apply Hnodir. }
  { exact Hico_ok. }
  cbn [Py.bind]. rewrite H256. cbn [Py.bind].
  unfold save_png. rewrite write_file_run; cycle 1.
  { rewrite removelast_join. unfold print. cbn [files stdout].
    rewrite insert_file_is_dir; [exact Hres | ].
    apply join_longer. reflexivity. }
  { apply Hnodir. unfold print. cbn [files].
    rewrite lookup_insert_ne by (apply ico_path_ne_preview_path).
    exact Hpng. }
  { exact Hpng_ok. }
  cbn [Py.bind]. eexists. split; reflexivity.
Qed.

(** C7. Rendering reads nothing but its argument: two evaluations of
    [create_icon_image] at one size return the same image, hence the
    same pixels.  Whatever the files and the output were before, and
    wherever the script lives, a successful run leaves the same two
    contents in [app.ico] and [app_preview.png]; and after a successful
    run a second run succeeds and leaves every file as the first run
    left it. *)
Theorem runs_are_reproducible :
  (forall sz a b,
      create_icon_image sz = Py.Ok a -> create_icon_image sz = Py.Ok b ->
      a = b /\ forall covers xy, getpixel covers a xy = getpixel covers b xy) /\
  (exists ico png,
      forall dir w w',
        main dir w = Py.Ok w' ->
        files w' !! ico_path dir = Some (File ico) /\
        files w' !! preview_path dir = Some (File png)) /\
  (forall dir w w',
      main dir w = Py.Ok w' ->
      exists w'', main dir w' = Py.Ok w'' /\ files w'' = files w').
Proof.
  destruct rendered_images
    as (first & rest & preview & Hrender & _ & H16 & H256 & _ & Hframes).
  assert (Hleft : forall dir w w',
            main dir w = Py.Ok w' ->
            files w' !! ico_path dir = Some (File (IcoFile [Provided first])) /\
            files w' !! preview_path dir = Some (File (PngFile preview)) /\
            is_dir w' (resources_dir dir) = true /\
            path_exists w' dir = true /\
            allowed w' (ico_path dir) /\ allowed w' (preview_path dir)).
  { intros dir w w' H.
    apply main_ok_steps in H
      as (f & p & wa & Hf & Hp & Hmk & Hd & _ & _ & Hai & Hap & ->).
    rewrite H16 in Hf. injection Hf as <-.
    rewrite H256 in Hp. injection Hp as <-.
    apply makedirs_ok in Hmk as (_ & _ & Hex).
    unfold resources_dir in Hex. rewrite removelast_join in Hex.
    split_and!.
    - cbn [files].
      rewrite lookup_insert_ne by (apply not_eq_sym, ico_path_ne_preview_path).
      apply lookup_insert_eq.
    - cbn [files]. apply lookup_insert_eq.
    - rewrite <- Hd. apply is_dir_same. cbn [files].
      rewrite !lookup_insert_ne by (apply join_longer; reflexivity).
      reflexivity.
    - rewrite <- Hex. apply path_exists_same. cbn [files].
      rewrite !lookup_insert_ne
        by (apply join_longer; unfold resources_dir, join;
            rewrite length_app; simpl; lia).
      reflexivity.
    - exact Hai.
    - exact Hap. }
  split_and!.
  - intros sz a b Ha Hb. rewrite Ha in Hb. injection Hb as <-. auto.
  - exists (IcoFile [Provided first]), (PngFile preview).
    intros dir w w' H. apply Hleft in H as (Hi & Hp & _). auto.
  - intros dir w w' H. apply Hleft in H as (Hi & Hp & Hd & Hex & Hai & Hap).
    destruct (main_run dir w' w' first rest preview) as (w'' & Hrun & Hfiles).
    + now apply makedirs_noop.
    + exact Hrender.
    + exact H256.
    + rewrite Hi. discriminate.
    + rewrite Hp. discriminate.
    + exact Hai.
    + exact Hap.
    + exists w''. split; [exact Hrun | ].
      rewrite Hfiles, Hframes.
      rewrite (insert_id (files w') (ico_path dir)) by exact Hi.
      now apply insert_id.
Qed.

Lemma runs_are_reproducible_witness :
  exists w' w'',
    main ["src"] (MkWorld ∅ [] ∅) = Py.Ok w' /\
    main ["src"] w' = Py.Ok w'' /\ files w'' = files w'.
Proof.
  destruct runs_are_reproducible as (_ & _ & Hagain).
  assert (Hrun : exists w', main ["src"] (MkWorld ∅ [] ∅) = Py.Ok w')
    by (eexists; vm_compute; reflexivity).
  destruct Hrun as [w' Hrun].
  destruct (Hagain _ _ _ Hrun) as (w'' & H2 & Hsame).
  exists w', w''. auto.
Defined.

(* ===================================================================== *)
(** ** Further properties *)
(* ===================================================================== *)

(** *** The order of the drawing calls *)

(** X1. Whatever the size, an image [create_icon_image] returns is
    drawn in this order, bottom to top: one filled disc per radius from
    [size // 2] down to 1, the border ring
    [[2, 2, size - 3, size - 3]] in (255, 255, 255, 100) of width
    [max(1, size // 32)], the inner and the outer arc of radii
    [int(size * 0.25)] and [int(size * 0.35)], the three bars of width
    [max(2, int(size * 0.06))] spaced [int(size * 0.08)] apart, and the
    dot on top when [size >= 48]: [size // 2 + 6] calls, one more from
    48 on. *)
Theorem drawing_order size img :
  create_icon_image size = Py.Ok img ->
  exists discs inner_r outer_r w bar_spacing base_y bar_x h0 h1 h2 dots,
    drawn img =
      discs ++ [border size] ++ arcs size inner_r outer_r
      ++ [ bar bar_x base_y (Z.max 2 w) bar_spacing 0 h0;
           bar bar_x base_y (Z.max 2 w) bar_spacing 1 h1;
           bar bar_x base_y (Z.max 2 w) bar_spacing 2 h2 ]
      ++ dots /\
    disc_calls size discs /\
    length discs = Z.to_nat (size / 2) /\
    scaled size (Py.literal 25 2) = Py.Ok inner_r /\
    scaled size (Py.literal 35 2) = Py.Ok outer_r /\
    scaled size (Py.literal 6 2) = Py.Ok w /\
    scaled size (Py.literal 8 2) = Py.Ok bar_spacing /\
    dot_calls size dots /\
    length (drawn img) =
      (Z.to_nat (size / 2) + 6 + (if (48 <=? size)%Z then 1 else 0))%nat.
Proof.
  intros H.
  destruct (create_icon_image_layers _ _ H)
    as (discs & ri & ro & w & sp & b & x & h0 & h1 & h2 & dots
        & Hd & Hdiscs & Hri & Hro & Hw & Hsp & Hdots & _).
  assert (Hlen : length discs = Z.to_nat (size / 2)).
  { apply Forall2_length in Hdiscs. rewrite <- Hdiscs.
    unfold Py.range_down. rewrite countdown_length. f_equal. lia. }
  exists discs, ri, ro, w, sp, b, x, h0, h1, h2, dots.
  split_and!; try assumption.
  rewrite Hd. rewrite !length_app, Hlen. simpl.
  unfold dot_calls in Hdots. destruct (48 <=? size).
  - destruct Hdots as [xy ->]. simpl. lia.
  - rewrite Hdots. simpl. lia.
Qed.

Lemma drawing_order_witness :
  exists img,
    create_icon_image 48 = Py.Ok img /\ length (drawn img) = 31%nat.
Proof.
  assert (Hrun : exists img, create_icon_image 48 = Py.Ok img)
    by (eexists; vm_compute; reflexivity).
  destruct Hrun as [img Himg]. exists img. split; [exact Himg | ].
  destruct (drawing_order 48 img Himg)
    as (d & ri & ro & w & sp & b & x & h0 & h1 & h2 & dots
        & _ & _ & _ & _ & _ & _ & _ & _ & Hn).
  exact Hn.
Defined.

(** *** Opacity *)

(** X2. Whatever the size and whatever the rasteriser, a pixel of an
    image [create_icon_image] returns is fully transparent
    (0, 0, 0, 0), or opaque (alpha 255), or the border's
    (255, 255, 255, 100), or, from 48 pixels on only, the dot's
    (255, 255, 255, 200): the alpha components 180 and 220 of
    [scan_color] and [chart_color] never reach the image. *)
Theorem pixel_alpha_values size img covers xy p :
  create_icon_image size = Py.Ok img ->
  getpixel covers img xy = Py.Ok p ->
  p = [0; 0; 0; 0] \/
  (exists r g b, p = [r; g; b; 255]) \/
  p = [255; 255; 255; 100] \/
  (48 <= size /\ p = [255; 255; 255; 200]).
Proof.
  intros H Hp. destruct xy as [x y].
  destruct (create_icon_image_layers _ _ H)
    as (_ & _ & _ & _ & _ & _ & _ & _ & _ & _ & _
        & _ & _ & _ & _ & _ & _ & _ & _ & Hm & _ & Hb).
  apply getpixel_inks in Hp as [-> | (rc & Hin & ->)]; rewrite Hm.
  - rewrite Hb. now left.
  - right. rewrite Hm in Hin. exact (icon_inks _ _ _ H Hin).
Qed.

Lemma pixel_alpha_values_witness :
  exists img p,
    create_icon_image 16 = Py.Ok img /\
    getpixel example_covers img (12, 5) = Py.Ok p /\
    (p = [0; 0; 0; 0] \/ (exists r g b, p = [r; g; b; 255]) \/
     p = [255; 255; 255; 100] \/ (48 <= 16 /\ p = [255; 255; 255; 200])).
Proof.
  assert (Hrun : exists img p, create_icon_image 16 = Py.Ok img /\
                   getpixel example_covers img (12, 5) = Py.Ok p)
    by (do 2 eexists; split; vm_compute; reflexivity).
  destruct Hrun as (img & p & Himg & Hp). exists img, p.
  split; [exact Himg | split; [exact Hp | ]].
  exact (pixel_alpha_values 16 img example_covers (12, 5) p Himg Hp).
Defined.

(** *** Sizes other than the six of the icon *)

Lemma lerp_floor_between (d l r half : Z) :
  0 < half -> 0 <= r <= half -> d <= l ->
  d <= lerp_floor d l r half <= l.
Proof.
  intros Hh Hr Hdl. unfold lerp_floor. split.
  - apply Z.div_le_lower_bound; [exact Hh | nia].
  - apply Z.div_le_upper_bound; [exact Hh | nia].
Qed.

(** Up to 256 the float colours are the integer interpolation. *)
(** Up to 256 the float colours are the integer interpolation. *)
Lemma gradient_color_checked (sz r : Z) :
  0 <= sz <= 256 -> 1 <= r <= sz / 2 ->
  gradient_color sz r = Py.Ok (ring_color sz r).
Proof.
  intros Hsz Hr. destruct (render_checked sz Hsz) as (Hcol & _).
  now apply Hcol.
Qed.

(** X3. For every size up to 256 and every radius of the background
    loop, the colour the float arithmetic of lines 38-43 gives is the
    exact interpolation between (20, 55, 90) and (26, 82, 118) rounded
    down, channel by channel: no rounding error reaches the integers.
    So every channel lies between its dark and its teal value, and the
    largest disc is exactly teal. *)
Theorem gradient_is_floor_interpolation (sz r : Z) :
  0 <= sz <= 256 -> 1 <= r <= sz / 2 ->
  exists c0 c1 c2,
    gradient_color sz r = Py.Ok (RGB c0 c1 c2) /\
    c0 = (20 * (sz / 2 - r) + 26 * r) / (sz / 2) /\
    c1 = (55 * (sz / 2 - r) + 82 * r) / (sz / 2) /\
    c2 = (90 * (sz / 2 - r) + 118 * r) / (sz / 2) /\
    20 <= c0 <= 26 /\ 55 <= c1 <= 82 /\ 90 <= c2 <= 118 /\
    (r = sz / 2 -> c0 = 26 /\ c1 = 82 /\ c2 = 118).
Proof.
  intros Hsz Hr.
  pose proof (gradient_color_checked sz r Hsz Hr) as Hin.
  exists (lerp_floor 20 26 r (sz / 2)), (lerp_floor 55 82 r (sz / 2)),
         (lerp_floor 90 118 r (sz / 2)).
  split_and!; try reflexivity; try exact Hin;
    try (apply lerp_floor_between; lia).
  intros ->. rewrite !lerp_floor_edge by lia. auto.
Qed.

Lemma gradient_is_floor_interpolation_witness :
  0 <= 100 <= 256 /\ 1 <= 7 <= 100 / 2 /\
  gradient_color 100 7 = Py.Ok (RGB 20 58 93).
Proof.
  assert (H1 : 0 <= 100 <= 256) by lia.
  assert (H2 : 1 <= 7 <= 100 / 2) by (change (100 / 2) with 50; lia).
  split; [exact H1 | split; [exact H2 | ]].
  destruct (gradient_is_floor_interpolation 100 7 H1 H2)
    as (c0 & c1 & c2 & Hc & -> & -> & -> & _).
  exact Hc.
Defined.

(** X4. [create_icon_image] returns an image for every size from 5 to
    256: none of the float conversions, divisions or truncations
    raises and every box is in order.  Below 5 pixels, zero and the
    negative sizes included, it raises [ValueError]: a negative size
    is refused by [Image.new], and from 0 to 4 the border box
    [[2, 2, size - 3, size - 3]] has its right edge left of its left
    edge, which [draw.ellipse] refuses. *)
Theorem renders_every_size_up_to_256 :
  (forall sz, 5 <= sz <= 256 -> exists img, create_icon_image sz = Py.Ok img) /\
  (forall sz, sz < 5 -> create_icon_image sz = Py.Raise Py.ValueError) /\
  (forall sz, sz < 0 ->
     new ModeRGBA (sz, sz) (RGBA 0 0 0 0) = Py.Raise Py.ValueError) /\
  (forall sz img, sz < 5 -> draw_border sz img = Py.Raise Py.ValueError) /\
  (forall sz img, create_icon_image sz = Py.Ok img -> 5 <= sz).
Proof.
  split_and!.
  - intros sz Hsz.
    destruct (render_checked sz ltac:(lia)) as (_ & _ & Hrun).
    destruct (Hrun ltac:(lia)) as (img & Himg & _). eauto.
  - intros sz Hsmall. destruct (Z.lt_ge_cases sz 0) as [Hneg | Hpos].
    + unfold create_icon_image, new. cbn [fst snd].
      apply Z.ltb_lt in Hneg. now rewrite Hneg.
    + destruct (render_checked sz ltac:(lia)) as (_ & Hraise & _).
      now apply Hraise.
  - intros sz Hneg. unfold new. cbn [fst snd].
    apply Z.ltb_lt in Hneg. now rewrite Hneg.
  - intros sz img Hsmall. now apply draw_border_small.
  - intros sz img H.
    destruct (create_icon_image_layers _ _ H)
      as (_ & _ & _ & _ & _ & _ & _ & _ & _ & _ & _
          & _ & _ & _ & _ & _ & _ & _ & H5 & _).
    exact H5.
Qed.

(** X5. From 5 pixels up to 256, every call of [create_icon_image]
    draws in a well-formed box within the canvas, with one exception:
    at an even size the largest background disc, the first call, has
    the box [[0, 0, size, size]], one past the last row and column (the
    discs are centred on [size // 2], not on the middle of the
    canvas).  At an odd size every box is within the canvas. *)
Theorem calls_stay_inside_the_canvas (sz : Z) img :
  5 <= sz <= 256 ->
  create_icon_image sz = Py.Ok img ->
  Forall (fun op =>
            box_inside sz (box_of op) = true \/
            (Z.even sz = true /\ op = largest_disc sz))
    (drawn img) /\
  head (drawn img) = Some (largest_disc sz) /\
  (Z.even sz = true -> box_of (largest_disc sz) = Box 0 0 sz sz) /\
  (Z.even sz = false ->
   Forall (fun op => box_inside sz (box_of op) = true) (drawn img)).
Proof.
  intros Hsz Himg.
  destruct (render_checked sz ltac:(lia)) as (_ & _ & Hrun).
  destruct (Hrun ltac:(lia)) as (img' & Himg' & Hall & _).
  rewrite Himg in Himg'. injection Himg' as <-.
  rewrite forallb_forall in Hall.
  assert (Hop : forall op, op ∈ drawn img ->
            box_inside sz (box_of op) = true \/
            (Z.even sz = true /\ op = largest_disc sz)).
  { intros op Hin. apply list_elem_of_In, Hall in Hin.
    unfold inside_or_largest_disc in Hin.
    apply orb_true_iff in Hin as [Hin | Hin]; [now left | right].
    apply andb_true_iff in Hin as [Hev Hdisc].
    apply bool_decide_eq_true in Hdisc. auto. }
  assert (Hhalf : 2 <= sz / 2) by (apply Z.div_le_lower_bound; lia).
  split_and!.
  - apply Forall_forall. exact Hop.
  - destruct (create_icon_image_layers _ _ Himg)
      as (discs & ri & ro & w & sp & b & x & h0 & h1 & h2 & dots
          & Hd & Hdiscs & _).
    unfold disc_calls, Py.range_down in Hdiscs.
    replace (Z.to_nat (sz / 2 - 0)) with (S (Z.to_nat (sz / 2 - 1))) in Hdiscs
      by lia.
    simpl in Hdiscs. inversion Hdiscs as [|r op rs ops Hhead Hrest]; subst.
    destruct Hhead as (c0 & c1 & c2 & Hc & ->).
    rewrite Hd. simpl. f_equal. unfold largest_disc. f_equal.
    rewrite gradient_color_checked in Hc by lia.
    injection Hc as <- <- <-.
    rewrite !lerp_floor_edge by lia. reflexivity.
  - intros Hev. apply Z.even_spec in Hev as [k ->].
    unfold largest_disc, ring, disc_box. simpl box_of.
    rewrite (Z.mul_comm 2 k), Z.div_mul by lia.
    f_equal; lia.
  - intros Hodd. apply Forall_forall. intros op Hin.
    destruct (Hop op Hin) as [Hin' | [Hev _]]; [exact Hin' | congruence].
Qed.

Lemma calls_stay_inside_the_canvas_witness :
  exists img,
    create_icon_image 16 = Py.Ok img /\
    head (drawn img) = Some (Ellipse (Box 0 0 16 16) (Some (RGB 26 82 118)) None 1).
Proof.
  assert (Hrun : exists img, create_icon_image 16 = Py.Ok img)
    by (eexists; vm_compute; reflexivity).
  destruct Hrun as [img Himg]. exists img. split; [exact Himg | ].
  destruct (calls_stay_inside_the_canvas 16 img ltac:(lia) Himg)
    as (_ & Hhead & _).
  exact Hhead.
Defined.

(** *** Truncated lengths *)

(** The scaled lengths of every size up to 1024, by running them. *)
Lemma scaled_up_to_1024 : forallb scaled_check (seqZ 0 1025) = true.
Proof. vm_cast_no_check (eq_refl true). Qed.

Lemma scaled_checked (sz : Z) :
  0 <= sz <= 1024 ->
  scaled sz (Py.literal 25 2) = Py.Ok (sz / 4) /\
  scaled sz (Py.literal 35 2) =
    Py.Ok (if bool_decide (sz ∈ short_sizes)
           then 35 * sz / 100 - 1 else 35 * sz / 100) /\
  scaled sz (Py.literal 6 2) = Py.Ok (6 * sz / 100) /\
  scaled sz (Py.literal 8 2) = Py.Ok (8 * sz / 100) /\
  scaled sz (Py.literal 12 2) = Py.Ok (12 * sz / 100) /\
  scaled sz (Py.literal 18 2) = Py.Ok (18 * sz / 100) /\
  scaled sz (Py.literal 24 2) = Py.Ok (24 * sz / 100).
Proof.
  intros Hsz. pose proof scaled_up_to_1024 as Hall.
  rewrite forallb_forall in Hall.
  specialize (Hall sz (in_seqZ_0 1025 sz ltac:(lia))).
  unfold scaled_check in Hall.
  rewrite !andb_true_iff, !bool_decide_eq_true in Hall.
  tauto.
Qed.

(** X6. Up to 1024 pixels the truncations [int(size * k)] of lines
    54-69 are the floors of the exact products for k = 0.25, 0.06,
    0.08, 0.12, 0.18 and 0.24, but not for k = 0.35: at the sizes 180,
    340, 360, 660, 680, 700 and 720, where 0.35 * size is a whole
    number, the float product falls just below it and the outer arc
    radius comes out one less (62 instead of 63 at size 180). *)
Theorem outer_radius_one_short (sz : Z) :
  0 <= sz <= 1024 ->
  scaled sz (Py.literal 35 2) =
    Py.Ok (if bool_decide (sz ∈ short_sizes)
           then 35 * sz / 100 - 1 else 35 * sz / 100) /\
  (sz ∈ short_sizes -> (35 * sz) mod 100 = 0) /\
  scaled sz (Py.literal 25 2) = Py.Ok (sz / 4) /\
  scaled sz (Py.literal 6 2) = Py.Ok (6 * sz / 100) /\
  scaled sz (Py.literal 8 2) = Py.Ok (8 * sz / 100) /\
  scaled sz (Py.literal 12 2) = Py.Ok (12 * sz / 100) /\
  scaled sz (Py.literal 18 2) = Py.Ok (18 * sz / 100) /\
  scaled sz (Py.literal 24 2) = Py.Ok (24 * sz / 100).
Proof.
  intros Hsz.
  destruct (scaled_checked sz Hsz) as (H25 & H35 & H6 & H8 & H12 & H18 & H24).
  split_and!; try assumption.
  unfold short_sizes. rewrite !elem_of_cons, elem_of_nil.
  intros [-> | [-> | [-> | [-> | [-> | [-> | [-> | []]]]]]]]; reflexivity.
Qed.

Lemma outer_radius_one_short_witness :
  0 <= 180 <= 1024 /\
  scaled 180 (Py.literal 35 2) = Py.Ok 62 /\ 35 * 180 / 100 = 63.
Proof.
  assert (H : 0 <= 180 <= 1024) by lia.
  split; [exact H | ].
  destruct (outer_radius_one_short 180 H) as (H35 & _).
  split; [exact H35 | reflexivity].
Defined.

Lemma filter_discs_not_rectangles size discs :
  disc_calls size discs -> List.filter is_rectangle discs = [].
Proof.
  unfold disc_calls. generalize (Py.range_down (size / 2) 0) as rs.
  intros rs H. induction H as [|r op rs ops (c0 & c1 & c2 & _ & ->) _ IH];
    [reflexivity | exact IH].
Qed.

(** X7. Up to 1024 pixels, the three chart bars of an image
    [create_icon_image] returns stand apart (each bar ends left of
    where the next one starts) exactly when [size >= 38]; below that,
    so at the icon sizes 16 and 32, neighbouring bars share pixel
    columns, the spacing [int(size * 0.08)] being no more than the
    width [max(2, int(size * 0.06))]. *)
Theorem bars_stand_apart_from_38 (sz : Z) img :
  0 <= sz <= 1024 ->
  create_icon_image sz = Py.Ok img ->
  exists b0 b1 b2,
    List.filter is_rectangle (drawn img) =
      [ Rectangle b0 (Some (RGB 100 200 150)) None 1;
        Rectangle b1 (Some (RGB 100 200 150)) None 1;
        Rectangle b2 (Some (RGB 100 200 150)) None 1 ] /\
    x1 b0 - x0 b0 = Z.max 2 (6 * sz / 100) /\
    x0 b1 - x0 b0 = 8 * sz / 100 /\
    x0 b2 - x0 b1 = 8 * sz / 100 /\
    (x1 b0 < x0 b1 <-> 38 <= sz) /\
    (x1 b1 < x0 b2 <-> 38 <= sz).
Proof.
  intros Hsz Himg.
  destruct (create_icon_image_layers _ _ Himg)
    as (discs & ri & ro & w & sp & b & x & h0 & h1 & h2 & dots
        & Hd & Hdiscs & _ & _ & Hw & Hsp & Hdots & _).
  destruct (scaled_checked sz Hsz) as (_ & _ & H6 & H8 & _).
  rewrite H6 in Hw. injection Hw as <-.
  rewrite H8 in Hsp. injection Hsp as <-.
  assert (Hnodot : List.filter is_rectangle dots = []).
  { unfold dot_calls in Hdots. destruct (48 <=? sz).
    - destruct Hdots as [xy ->]. reflexivity.
    - now rewrite Hdots. }
  eexists _, _, _. split.
  { rewrite Hd. rewrite !List.filter_app.
    rewrite (filter_discs_not_rectangles _ _ Hdiscs), Hnodot.
    cbn. reflexivity. }
  cbn.
  assert (Hfloors : 38 <= sz <-> Z.max 2 (6 * sz / 100) < 8 * sz / 100).
  { pose proof (Z.div_mod (6 * sz) 100 ltac:(lia)).
    pose proof (Z.mod_pos_bound (6 * sz) 100 ltac:(lia)).
    pose proof (Z.div_mod (8 * sz) 100 ltac:(lia)).
    pose proof (Z.mod_pos_bound (8 * sz) 100 ltac:(lia)).
    lia. }
  split_and!; try lia.
Qed.

Lemma bars_stand_apart_from_38_witness :
  exists img b0 b1,
    create_icon_image 16 = Py.Ok img /\
    nth_error (List.filter is_rectangle (drawn img)) 0
      = Some (Rectangle b0 (Some (RGB 100 200 150)) None 1) /\
    nth_error (List.filter is_rectangle (drawn img)) 1
      = Some (Rectangle b1 (Some (RGB 100 200 150)) None 1) /\
    ~ x1 b0 < x0 b1.
Proof.
  assert (Hrun : exists img, create_icon_image 16 = Py.Ok img)
    by (eexists; vm_compute; reflexivity).
  destruct Hrun as [img Himg].
  destruct (bars_stand_apart_from_38 16 img ltac:(lia) Himg)
    as (b0 & b1 & b2 & Hbars & _ & _ & _ & Hapart & _).
  exists img, b0, b1. rewrite Hbars. split_and!; try reflexivity; try assumption.
  intros H. apply Hapart in H. lia.
Defined.

(** *** Directories and files of a run *)

Lemma path_exists_lookup w p :
  p <> [] ->
  path_exists w p = match files w !! p with Some _ => true | None => false end.
Proof. intros Hp. destruct p; [congruence | reflexivity]. Qed.

Lemma is_dir_lookup w p :
  p <> [] ->
  is_dir w p = match files w !! p with Some Dir => true | _ => false end.
Proof. intros Hp. destruct p; [congruence | reflexivity]. Qed.

Lemma path_exists_false w p :
  path_exists w p = false -> p <> [] /\ files w !! p = None.
Proof.
  destruct p as [|c p]; [discriminate | ]. simpl.
  destruct (files w !! (c :: p)); [discriminate | ]. intros _. split; congruence.
Qed.

Lemma is_file_lookup w p :
  is_file w p = true <-> p <> [] /\ exists c, files w !! p = Some (File c).
Proof.
  unfold is_file. destruct p as [|c0 p]; simpl.
  - split; [discriminate | intros [H _]; congruence].
  - destruct (files w !! (c0 :: p)) as [[|c]|]; simpl.
    + split; [discriminate | intros [_ [c' H]]; discriminate H].
    + split; [intros _; split; [discriminate | eauto] | reflexivity].
    + split; [discriminate | intros [_ [c' H]]; discriminate H].
Qed.

Lemma is_file_same w w' p :
  files w' !! p = files w !! p -> is_file w' p = is_file w p.
Proof.
  intros H. unfold is_file, path_exists, is_dir.
  destruct p; [reflexivity | now rewrite H].
Qed.

Lemma not_file_is_dir w p :
  path_exists w p = true -> is_file w p = false -> is_dir w p = true.
Proof. unfold is_file. intros ->. simpl. now destruct (is_dir w p). Qed.

(** What the last [mkdir] of [makedirs] does when it goes through. *)
Lemma mkdir_exist_ok_cases p w w' :
  mkdir_exist_ok p w = Py.Ok w' ->
  (w' = w /\ is_dir w p = true) \/
  (p <> [] /\ files w !! p = None /\ is_dir w (removelast p) = true /\
   allowed w p /\
   w' = MkWorld (<[p := Dir]> (files w)) (stdout w) (denied w)).
Proof.
  unfold mkdir_exist_ok. destruct (mkdir p w) as [w1|e] eqn:Hmk.
  - intros [= <-]. apply mkdir_ok in Hmk as (Hnew & Hpar & Hallow & ->).
    apply path_exists_false in Hnew as [Hp Hnone]. right. auto.
  - destruct (is_dir w p) eqn:Hd; [ | discriminate].
    intros [= <-]. left. auto.
Qed.

Lemma mkdir_exist_ok_run p w :
  is_dir w (removelast p) = true -> is_file w p = false ->
  (path_exists w p = false -> allowed w p) ->
  exists w', mkdir_exist_ok p w = Py.Ok w'.
Proof.
  intros Hpar Hfile Hallow. unfold mkdir_exist_ok, mkdir.
  destruct (path_exists w p) eqn:Hex.
  - rewrite (not_file_is_dir _ _ Hex Hfile). eauto.
  - rewrite Hpar, (Hallow eq_refl). eauto.
Qed.

Lemma mkdir_exist_ok_raise p w e :
  mkdir_exist_ok p w = Py.Raise e ->
  (e = Py.FileExistsError /\ is_file w p = true) \/
  (e = Py.NotADirectoryError /\ is_file w (removelast p) = true) \/
  (e = Py.FileNotFoundError /\ path_exists w (removelast p) = false) \/
  (exists r, denied w !! p = Some r /\ e = refusal_error r /\
             path_exists w p = false).
Proof.
  unfold mkdir_exist_ok, mkdir, is_file.
  destruct (path_exists w p) eqn:Hex.
  - destruct (is_dir w p); [discriminate | ]. intros [= <-]. left. auto.
  - destruct (is_dir w (removelast p)) eqn:Hpar.
    + destruct (denied w !! p) as [r|] eqn:Hr; [ | discriminate].
      destruct (is_dir w p); [discriminate | ]. intros [= <-].
      right; right; right. eauto.
    + destruct (path_exists w (removelast p)) eqn:Hpex;
        (destruct (is_dir w p); [discriminate | ]); intros [= <-]; auto.
Qed.

(** The part of [makedirs] that makes the parent. *)
Lemma makedirs_head_cases head w :
  (match head with
   | [] => Py.Ok w
   | _ => if path_exists w (rev head) then Py.Ok w else makedirs_rev head w
   end) =
  if path_exists w (rev head) then Py.Ok w else makedirs_rev head w.
Proof. destruct head; reflexivity. Qed.

(** [makedirs] leaves what exists alone, and makes nothing but
    directories on the way to its argument. *)
Lemma makedirs_rev_frame name w w' :
  makedirs_rev name w = Py.Ok w' ->
  denied w' = denied w /\
  forall q, files w' !! q = files w !! q \/
            (files w !! q = None /\ files w' !! q = Some Dir /\
             q `prefix_of` rev name /\ allowed w q).
Proof.
  revert w w'; induction name as [|tail head IH]; intros w w' H; simpl in H.
  - apply mkdir_exist_ok_cases in H as [[-> _] | (Hp & _)]; [auto | congruence].
  - rewrite makedirs_head_cases in H.
    apply bind_ok in H as (w1 & Hhead & H).
    assert (Hw1 : denied w1 = denied w /\
                  forall q, files w1 !! q = files w !! q \/
                    (files w !! q = None /\ files w1 !! q = Some Dir /\
                     q `prefix_of` rev (tail :: head) /\ allowed w q)).
    { destruct (path_exists w (rev head)).
      - injection Hhead as <-. auto.
      - destruct (IH _ _ Hhead) as [Hden Hq]. split; [exact Hden | ].
        intros q'.
        destruct (Hq q') as [Hsame | (Hn & Hd & Hpre & Ha)]; [auto | ].
        right. split_and!; try assumption. simpl. now apply prefix_app_r. }
    destruct Hw1 as [Hden Hw1].
    apply mkdir_exist_ok_cases in H
      as [[-> _] | (Hp & Hnone & _ & Hallow & ->)]; [auto | ].
    split; [exact Hden | ]. intros q.
    cbn [files]. destruct (decide (q = rev head ++ [tail])) as [-> | Hne].
    + right. rewrite lookup_insert_eq.
      split_and!; [ | reflexivity | reflexivity | ].
      * destruct (Hw1 (rev head ++ [tail])) as [Hsame | (Hn & _)]; congruence.
      * unfold allowed in *. now rewrite <- Hden.
    + rewrite lookup_insert_ne by congruence. apply Hw1.
Qed.

Lemma mkdir_exist_ok_well_formed p w w' :
  well_formed w -> mkdir_exist_ok p w = Py.Ok w' -> well_formed w'.
Proof.
  intros Hwf H. pose proof (mkdir_exist_ok_spec _ _ _ H) as [Hext _].
  apply mkdir_exist_ok_cases in H as [[-> _] | (Hp & Hnone & Hpar & _ & Hw')];
    [exact Hwf | ].
  intros q node Hq. apply (extends_is_dir _ _ _ Hext).
  destruct (decide (q = p)) as [-> | Hne]; [exact Hpar | ].
  rewrite Hw' in Hq. cbn [files] in Hq.
  rewrite lookup_insert_ne in Hq by congruence. eapply Hwf, Hq.
Qed.

Lemma makedirs_rev_well_formed name w w' :
  well_formed w -> makedirs_rev name w = Py.Ok w' -> well_formed w'.
Proof.
  revert w w'; induction name as [|tail head IH]; intros w w' Hwf H; simpl in H.
  - eapply mkdir_exist_ok_well_formed; eassumption.
  - rewrite makedirs_head_cases in H.
    apply bind_ok in H as (w1 & Hhead & H).
    eapply mkdir_exist_ok_well_formed; [ | exact H].
    destruct (path_exists w (rev head)).
    + now injection Hhead as <-.
    + eapply IH; eassumption.
Qed.

(** In a well-formed file system the ancestors of what exists are
    directories. *)
Lemma well_formed_ancestors w q k :
  well_formed w -> path_exists w (q ++ k) = true -> k <> [] ->
  is_dir w q = true.
Proof.
  intros Hwf. induction k as [|x k IH] using rev_ind; [congruence | ].
  intros Hex _.
  assert (Hne : q ++ k ++ [x] <> []) by (destruct q, k; discriminate).
  rewrite (path_exists_lookup _ _ Hne) in Hex.
  destruct (files w !! (q ++ k ++ [x])) as [node|] eqn:Hq; [ | discriminate].
  apply Hwf in Hq. rewrite app_assoc, removelast_last in Hq.
  destruct k as [|y k]; [now rewrite app_nil_r in Hq | ].
  apply IH; [now apply is_dir_exists | discriminate].
Qed.

Lemma makedirs_rev_run name w :
  (forall q, q `prefix_of` rev name -> is_file w q = false) ->
  (forall q, q `prefix_of` rev name -> path_exists w q = false ->
             allowed w q) ->
  exists w', makedirs_rev name w = Py.Ok w'.
Proof.
  revert w; induction name as [|tail head IH]; intros w Hfree Hallow; simpl.
  - apply mkdir_exist_ok_run; [reflexivity | apply Hfree; reflexivity | ].
    apply Hallow. reflexivity.
  - rewrite makedirs_head_cases.
    assert (Hhead : exists w1,
              (if path_exists w (rev head) then Py.Ok w
               else makedirs_rev head w) = Py.Ok w1 /\
              is_dir w1 (rev head) = true /\
              is_file w1 (rev head ++ [tail]) = false /\
              (path_exists w1 (rev head ++ [tail]) = false ->
               allowed w1 (rev head ++ [tail]))).
    { destruct (path_exists w (rev head)) eqn:Hex.
      - exists w. split_and!; [reflexivity | | | ].
        + apply not_file_is_dir; [exact Hex | ].
          apply Hfree. simpl. now apply prefix_app_r.
        + apply Hfree. reflexivity.
        + apply Hallow. reflexivity.
      - destruct (IH w) as [w1 Hw1].
        { intros q Hq. apply Hfree. simpl. now apply prefix_app_r. }
        { intros q Hq. apply Hallow. simpl. now apply prefix_app_r. }
        exists w1. pose proof (makedirs_rev_ok _ _ _ Hw1) as (Hext & Hd & _).
        destruct (makedirs_rev_frame _ _ _ Hw1) as [Hden Hframe].
        split_and!; [exact Hw1 | exact Hd | | ].
        + destruct (Hframe (rev head ++ [tail])) as [Hsame | (_ & Hdir & _)].
          * rewrite (is_file_same _ _ _ Hsame). apply Hfree. reflexivity.
          * unfold is_file.
            rewrite is_dir_lookup, Hdir by (destruct (rev head); discriminate).
            apply andb_false_r.
        + intros Hnew. unfold allowed. rewrite Hden. apply Hallow; [reflexivity | ].
          destruct (path_exists w (rev head ++ [tail])) eqn:Hold; [ | reflexivity].
          now rewrite (extends_exists _ _ _ Hext Hold) in Hnew. }
    destruct Hhead as (w1 & -> & Hd & Hfile & Ha). cbn [Py.bind].
    apply mkdir_exist_ok_run; [now rewrite removelast_last | exact Hfile | exact Ha].
Qed.

Lemma makedirs_rev_raise name w e :
  makedirs_rev name w = Py.Raise e ->
  (e = Py.FileExistsError /\ is_file w (rev name) = true) \/
  (e = Py.NotADirectoryError /\
   exists q, q `prefix_of` rev name /\ q <> rev name /\ is_file w q = true) \/
  (exists q r, q `prefix_of` rev name /\ path_exists w q = false /\
               denied w !! q = Some r /\ e = refusal_error r).
Proof.
  revert w e; induction name as [|tail head IH]; intros w e H; simpl in H.
  - discriminate H.
  - rewrite makedirs_head_cases in H.
    assert (Hproper : forall q, q `prefix_of` rev head ->
              q `prefix_of` rev (tail :: head) /\ q <> rev (tail :: head)).
    { intros q Hq. simpl. split; [now apply prefix_app_r | ].
      intros ->. now apply prefix_snoc_not in Hq. }
    apply bind_raise in H as [Hhead | (w1 & Hhead & H)].
    + destruct (path_exists w (rev head)) eqn:Hex; [discriminate Hhead | ].
      apply IH in Hhead
        as [[_ Hfile] | [(-> & q & Hq & _ & Hfile) | (q & r & Hq & Hnew & Hr & ->)]].
      * unfold is_file in Hfile. rewrite Hex in Hfile. discriminate Hfile.
      * right; left. split; [reflexivity | ]. exists q.
        destruct (Hproper q Hq). auto.
      * right; right. exists q, r. destruct (Hproper q Hq). auto.
    + assert (Hw1 : path_exists w1 (rev head) = true /\
                    denied w1 = denied w /\
                    (forall q, is_file w1 q = true -> is_file w q = true) /\
                    (forall q, path_exists w1 q = false ->
                               path_exists w q = false)).
      { destruct (path_exists w (rev head)) eqn:Hex.
        - injection Hhead as <-. auto.
        - pose proof (makedirs_rev_ok _ _ _ Hhead) as (Hext & Hd & _).
          destruct (makedirs_rev_frame _ _ _ Hhead) as [Hden Hframe].
          split_and!; [now apply is_dir_exists | exact Hden | | ].
          + intros q Hq.
            destruct (Hframe q) as [Hsame | (_ & Hdir & _)].
            * now rewrite <- (is_file_same _ _ _ Hsame).
            * apply is_file_lookup in Hq as (_ & c & Hq). congruence.
          + intros q Hq.
            destruct (path_exists w q) eqn:Hold; [ | reflexivity].
            now rewrite (extends_exists _ _ _ Hext Hold) in Hq. }
      destruct Hw1 as (Hex1 & Hden & Hfiles & Hnew).
      apply mkdir_exist_ok_raise in H
        as [[-> Hfile] | [[-> Hfile] | [[_ Hmissing] | (r & Hr & -> & Hno)]]].
      * left. split; [reflexivity | ]. apply Hfiles, Hfile.
      * right; left. split; [reflexivity | ]. exists (rev head).
        rewrite removelast_last in Hfile.
        destruct (Hproper (rev head)); [reflexivity | ]. auto.
      * rewrite removelast_last in Hmissing. congruence.
      * right; right. exists (rev head ++ [tail]), r.
        rewrite Hden in Hr. split_and!; [reflexivity | now apply Hnew | exact Hr | reflexivity].
Qed.

Lemma write_file_raise p c w e :
  write_file p c w = Py.Raise e ->
  (e = Py.FileNotFoundError /\ path_exists w (removelast p) = false) \/
  (e = Py.NotADirectoryError /\ is_file w (removelast p) = true) \/
  (e = Py.IsADirectoryError /\ is_dir w (removelast p) = true /\
   is_dir w p = true) \/
  (exists r, denied w !! p = Some r /\ e = refusal_error r /\
             is_dir w (removelast p) = true /\ is_dir w p = false).
Proof.
  unfold write_file, is_file.
  destruct (path_exists w (removelast p)); simpl; [ | intros [= <-]; auto].
  destruct (is_dir w (removelast p)); simpl; [ | intros [= <-]; auto].
  destruct (is_dir w p); [intros [= <-]; right; right; left; auto | ].
  destruct (denied w !! p) as [r|]; [ | discriminate].
  intros [= <-]. right; right; right. eauto.
Qed.

Lemma write_file_well_formed p c w w' :
  well_formed w -> write_file p c w = Py.Ok w' -> well_formed w'.
Proof.
  intros Hwf H. apply write_file_ok in H as (Hpar & Hnodir & _ & ->).
  intros q node Hq. cbn [files] in Hq.
  assert (Hkeep : forall d, is_dir w d = true ->
            is_dir (MkWorld (<[p := File c]> (files w)) (stdout w) (denied w)) d
            = true).
  { intros d Hd. rewrite insert_file_is_dir; [exact Hd | ].
    intros <-. congruence. }
  apply Hkeep. destruct (decide (q = p)) as [-> | Hne]; [exact Hpar | ].
  rewrite lookup_insert_ne in Hq by congruence. eapply Hwf, Hq.
Qed.

Lemma ico_path_not_prefix dir : ~ ico_path dir `prefix_of` resources_dir dir.
Proof. apply prefix_snoc_not. Qed.

Lemma preview_path_not_prefix dir :
  ~ preview_path dir `prefix_of` resources_dir dir.
Proof. apply prefix_snoc_not. Qed.

(** [makedirs] does not touch a path that is no prefix of its
    argument. *)
Lemma makedirs_elsewhere p w w' q :
  makedirs p w = Py.Ok w' -> ~ q `prefix_of` p ->
  files w' !! q = files w !! q.
Proof.
  unfold makedirs. intros H Hq.
  destruct (makedirs_rev_frame _ _ _ H) as [_ Hframe].
  destruct (Hframe q) as [Hsame | (_ & _ & Hpre & _)]; [exact Hsame | ].
  rewrite rev_involutive in Hpre. contradiction.
Qed.

(** A run goes through when no file stands where the directory goes,
    no directory where the two files go, and the operating system
    refuses none of what has to be made or written. *)
Lemma main_runs dir w :
  (forall q, q `prefix_of` resources_dir dir -> is_file w q = false) ->
  (forall q, q `prefix_of` resources_dir dir -> path_exists w q = false ->
             allowed w q) ->
  is_dir w (ico_path dir) = false -> is_dir w (preview_path dir) = false ->
  allowed w (ico_path dir) -> allowed w (preview_path dir) ->
  exists w', main dir w = Py.Ok w'.
Proof.
  intros Hfree Hallow Hico Hpng Hico_ok Hpng_ok.
  destruct (makedirs_rev_run (rev (resources_dir dir)) w) as [wa Hmk].
  { now rewrite rev_involutive. }
  { now rewrite rev_involutive. }
  destruct (makedirs_rev_frame _ _ _ Hmk) as [Hden _].
  fold (makedirs (resources_dir dir) w) in Hmk.
  destruct rendered_images
    as (first & rest & preview & Hrender & _ & _ & H256 & _ & _).
  assert (Hnodir : forall q, ~ q `prefix_of` resources_dir dir ->
            q <> [] -> is_dir w q = false -> files wa !! q <> Some Dir).
  { intros q Hq Hne Hd. rewrite (makedirs_elsewhere _ _ _ _ Hmk Hq).
    rewrite is_dir_lookup in Hd by exact Hne.
    intros Heq. rewrite Heq in Hd. discriminate Hd. }
  destruct (main_run dir w wa first rest preview Hmk Hrender H256)
    as (w' & Hrun & _).
  - apply Hnodir; [apply ico_path_not_prefix | apply join_nonempty | exact Hico].
  - apply Hnodir;
      [apply preview_path_not_prefix | apply join_nonempty | exact Hpng].
  - unfold allowed. now rewrite Hden.
  - unfold allowed. now rewrite Hden.
  - eauto.
Qed.

Lemma well_formed_empty out dn : well_formed (MkWorld ∅ out dn).
Proof. intros q node Hq. cbn [files] in Hq. now rewrite lookup_empty in Hq. Qed.

(** On an empty disk with nothing refused a run goes through. *)
Lemma main_on_empty_disk dir out :
  exists w', main dir (MkWorld ∅ out ∅) = Py.Ok w'.
Proof.
  assert (Hnone : forall q, is_dir (MkWorld ∅ out ∅) q = true -> q = []).
  { intros [|c q]; [reflexivity | ]. unfold is_dir. cbn [files].
    now rewrite lookup_empty. }
  apply main_runs.
  - intros q _. unfold is_file, path_exists, is_dir. cbn [files].
    destruct q; [reflexivity | now rewrite lookup_empty].
  - intros q _ _. apply lookup_empty.
  - destruct (is_dir _ (ico_path dir)) eqn:Hd; [ | reflexivity].
    apply Hnone in Hd. now apply join_nonempty in Hd.
  - destruct (is_dir _ (preview_path dir)) eqn:Hd; [ | reflexivity].
    apply Hnone in Hd. now apply join_nonempty in Hd.
  - apply lookup_empty.
  - apply lookup_empty.
Qed.

(** X8. A successful run of [main] prints exactly two lines, after
    whatever was printed before: ["Icon created: "] with the path of
    [app.ico], then ["Preview created: "] with the path of
    [app_preview.png]; the paths are absolute and printed the POSIX
    way, a [/] before every component. *)
Theorem main_prints_two_lines dir w w' :
  main dir w = Py.Ok w' ->
  stdout w' =
    stdout w ++ [ ("Icon created: " ++ path_str (ico_path dir))%string;
                  ("Preview created: " ++ path_str (preview_path dir))%string ].
Proof.
  intros H.
  apply main_ok_steps in H
    as (first & preview & wa & _ & _ & Hmk & _ & _ & _ & _ & _ & ->).
  apply makedirs_ok in Hmk as ((Hout & _) & _). cbn [stdout].
  now rewrite Hout.
Qed.

Lemma main_prints_two_lines_witness :
  exists w',
    main ["repo"; "RVUCounter"] (MkWorld ∅ ["hello"] ∅) = Py.Ok w' /\
    stdout w' =
      [ "hello"; "Icon created: /repo/RVUCounter/Resources/app.ico";
        "Preview created: /repo/RVUCounter/Resources/app_preview.png" ].
Proof.
  destruct (main_on_empty_disk ["repo"; "RVUCounter"] ["hello"]) as [w' Hrun].
  exists w'. split; [exact Hrun | ].
  exact (main_prints_two_lines _ _ _ Hrun).
Defined.

(** X9. A successful run of [main] writes [app.ico] and
    [app_preview.png] and nothing else: every other path holds what it
    held before, or was missing and is now a directory on the way to
    the [Resources] directory; what was a directory still is one, and
    a well-formed file system stays well formed. *)
Theorem main_changes_only_its_outputs dir w w' :
  main dir w = Py.Ok w' ->
  (forall q, q <> ico_path dir -> q <> preview_path dir ->
     files w' !! q = files w !! q \/
     (files w !! q = None /\ files w' !! q = Some Dir /\
      q `prefix_of` resources_dir dir)) /\
  (forall q, is_dir w q = true -> is_dir w' q = true) /\
  (well_formed w -> well_formed w').
Proof.
  intros H. pose proof H as Hrun.
  apply main_ok_steps in H
    as (first & preview & wa & _ & _ & Hmk & Hres & Hico & Hpng & Hai & Hap & ->).
  assert (Hframe : forall q, q <> ico_path dir -> q <> preview_path dir ->
     files wa !! q = files w !! q \/
     (files w !! q = None /\ files wa !! q = Some Dir /\
      q `prefix_of` resources_dir dir)).
  { intros q _ _. unfold makedirs in Hmk.
    destruct (makedirs_rev_frame _ _ _ Hmk) as [_ Hq].
    destruct (Hq q) as [Hsame | (Hn & Hd & Hpre & _)]; [auto | ].
    rewrite rev_involutive in Hpre. auto. }
  split_and!.
  - intros q Hq1 Hq2. cbn [files].
    rewrite !lookup_insert_ne by congruence. now apply Hframe.
  - intros q Hq.
    apply makedirs_ok in Hmk as (Hext & _).
    pose proof (extends_is_dir _ _ _ Hext Hq) as Hqa.
    destruct q as [|c q]; [reflexivity | ].
    unfold is_dir. cbn [files].
    rewrite !lookup_insert_ne; [exact Hqa | | ]; intros Heq;
      rewrite <- Heq in Hqa; congruence.
  - intros Hwf.
    assert (Hwa : well_formed wa)
      by (eapply makedirs_rev_well_formed; [exact Hwf | exact Hmk]).
    set (wb := MkWorld (<[ico_path dir := File (IcoFile [Provided first])]>
                          (files wa)) (stdout wa) (denied wa)).
    assert (Hwb : well_formed wb).
    { apply (write_file_well_formed (ico_path dir)
               (IcoFile [Provided first]) wa); [exact Hwa | ].
      apply write_file_run;
        [now rewrite removelast_ico_path | exact Hico | exact Hai]. }
    assert (Hwc : well_formed
              (MkWorld (<[preview_path dir := File (PngFile preview)]>
                          (files wb)) (stdout wb) (denied wb))).
    { apply (write_file_well_formed (preview_path dir) (PngFile preview) wb);
        [exact Hwb | ].
      apply write_file_run.
      - rewrite removelast_preview_path. unfold wb.
        rewrite insert_file_is_dir; [exact Hres | ].
        apply join_longer. reflexivity.
      - unfold wb. rewrite insert_file_is_dir; [exact Hpng | ].
        apply ico_path_ne_preview_path.
      - exact Hap. }
    intros q node Hq. exact (Hwc q node Hq).
Qed.

Lemma main_changes_only_its_outputs_witness :
  exists w',
    main ["src"] (MkWorld ∅ [] ∅) = Py.Ok w' /\
    files w' !! ["src"] = Some Dir /\
    files w' !! ["src"; "Resources"] = Some Dir /\
    files w' !! ["src"; "README.md"] = None /\
    well_formed w'.
Proof.
  destruct (main_on_empty_disk ["src"] []) as [w' Hrun].
  destruct (main_changes_only_its_outputs _ _ _ Hrun) as (Hframe & Hdirs & Hwf).
  exists w'. split_and!.
  - exact Hrun.
  - destruct (Hframe ["src"]) as [Hsame | (_ & Hd & _)];
      [discriminate | discriminate | | exact Hd].
    exfalso.
    apply main_ok in Hrun as (wa & f & r & p & Hmk & _ & _ & Hfiles).
    apply makedirs_ok in Hmk as (_ & _ & Hex).
    unfold resources_dir in Hex. rewrite removelast_join in Hex.
    unfold path_exists in Hex.
    assert (Hwa : files wa !! ["src"] = files w' !! ["src"]).
    { rewrite Hfiles. now rewrite !lookup_insert_ne by discriminate. }
    rewrite Hwa, Hsame in Hex. cbn [files] in Hex.
    rewrite lookup_empty in Hex. discriminate Hex.
  - destruct (Hframe ["src"; "Resources"]) as [Hsame | (_ & Hd & _)];
      [discriminate | discriminate | | exact Hd].
    exfalso.
    apply main_ok in Hrun as (wa & f & r & p & Hmk & _ & _ & Hfiles).
    apply makedirs_ok in Hmk as (_ & Hd & _).
    unfold resources_dir, join in Hd. simpl in Hd.
    assert (Hwa : files wa !! ["src"; "Resources"]
                  = files w' !! ["src"; "Resources"]).
    { rewrite Hfiles. now rewrite !lookup_insert_ne by discriminate. }
    rewrite Hwa, Hsame in Hd. cbn [files] in Hd.
    rewrite lookup_empty in Hd. discriminate Hd.
  - destruct (Hframe ["src"; "README.md"]) as [Hsame | (_ & _ & Hpre)];
      [discriminate | discriminate | | ].
    + rewrite Hsame. apply lookup_empty.
    + exfalso. destruct Hpre as [k Hk]. discriminate Hk.
  - apply Hwf, well_formed_empty.
Defined.

(** X10. On a well-formed file system [main] succeeds exactly when no
    file stands where a directory is needed (at [Resources] or at a
    directory above it), neither [app.ico] nor [app_preview.png] is a
    directory, and the operating system refuses neither the making of
    a directory that is missing on the way to [Resources] nor the
    writing of the two files (a directory that is not writable is such
    a refusal).  Missing directories are no obstacle in themselves:
    they are made.  (Looking a path up is taken to be permitted
    everywhere.) *)
Theorem main_succeeds_iff dir w :
  well_formed w ->
  ((exists w', main dir w = Py.Ok w') <->
   (forall q, q `prefix_of` resources_dir dir -> is_file w q = false) /\
   (forall q, q `prefix_of` resources_dir dir -> path_exists w q = false ->
              allowed w q) /\
   is_dir w (ico_path dir) = false /\
   is_dir w (preview_path dir) = false /\
   allowed w (ico_path dir) /\ allowed w (preview_path dir)).
Proof.
  intros Hwf. split.
  - intros [w' H].
    apply main_ok_steps in H
      as (first & preview & wa & _ & _ & Hmk & Hres & Hico & Hpng & Hai & Hap & _).
    assert (Hwa : well_formed wa)
      by (eapply makedirs_rev_well_formed; [exact Hwf | exact Hmk]).
    pose proof (makedirs_ok _ _ _ Hmk) as ((_ & _ & Hext) & _).
    pose proof Hmk as Hmk'. unfold makedirs in Hmk'.
    destruct (makedirs_rev_frame _ _ _ Hmk') as [Hden Hframe].
    assert (Hdirs : forall q, q `prefix_of` resources_dir dir ->
              is_dir wa q = true).
    { intros q [k Hk]. destruct k as [|x k].
      - rewrite app_nil_r in Hk. now rewrite <- Hk.
      - apply (well_formed_ancestors wa q (x :: k)); [exact Hwa | | discriminate].
        rewrite <- Hk. now apply is_dir_exists. }
    split_and!.
    + intros q Hq. destruct (is_file w q) eqn:Hfile; [exfalso | reflexivity].
      apply is_file_lookup in Hfile as (Hne & c & Hfile).
      apply Hext in Hfile.
      pose proof (Hdirs q Hq) as Hd.
      rewrite is_dir_lookup, Hfile in Hd by exact Hne. discriminate Hd.
    + intros q Hq Hnew.
      apply path_exists_false in Hnew as [Hne Hnone].
      pose proof (Hdirs q Hq) as Hd.
      rewrite is_dir_lookup in Hd by exact Hne.
      destruct (Hframe q) as [Hsame | (_ & _ & _ & Ha)]; [ | exact Ha].
      rewrite Hsame, Hnone in Hd. discriminate Hd.
    + rewrite (is_dir_same wa w); [exact Hico | ].
      symmetry. apply (makedirs_elsewhere _ _ _ _ Hmk), ico_path_not_prefix.
    + rewrite (is_dir_same wa w); [exact Hpng | ].
      symmetry. apply (makedirs_elsewhere _ _ _ _ Hmk), preview_path_not_prefix.
    + unfold allowed in *. now rewrite <- Hden.
    + unfold allowed in *. now rewrite <- Hden.
  - intros (Hfree & Hallow & Hico & Hpng & Hai & Hap). now apply main_runs.
Qed.

Lemma main_succeeds_iff_witness :
  well_formed (MkWorld {[ ["src"] := Dir ]} []
                 {[ ["src"; "Resources"] := NotPermitted ]}) /\
  ~ exists w',
      main ["src"] (MkWorld {[ ["src"] := Dir ]} []
                      {[ ["src"; "Resources"] := NotPermitted ]}) = Py.Ok w'.
Proof.
  assert (Hwf : well_formed (MkWorld {[ ["src"] := Dir ]} []
                               {[ ["src"; "Resources"] := NotPermitted ]})).
  { intros q node Hq. cbn [files] in Hq.
    apply lookup_singleton_Some in Hq as [<- _]. reflexivity. }
  split; [exact Hwf | ].
  intros Hrun. apply (main_succeeds_iff _ _ Hwf) in Hrun as (_ & Hallow & _).
  specialize (Hallow ["src"; "Resources"]).
  assert (Hno : allowed (MkWorld {[ ["src"] := Dir ]} []
                           {[ ["src"; "Resources"] := NotPermitted ]})
                  ["src"; "Resources"]).
  { apply Hallow; reflexivity. }
  unfold allowed in Hno. cbn [denied] in Hno.
  rewrite lookup_singleton_eq in Hno. discriminate Hno.
Defined.

(** X11. When [main] fails, it is in one of four ways: with
    [FileExistsError] when [Resources] is a file; with
    [NotADirectoryError] when a directory above it is a file; with
    [IsADirectoryError] when [app.ico] or [app_preview.png] is a
    directory; or with the error of the operating system
    ([PermissionError] when the process is not permitted) where it
    refuses the making of a missing directory on the way to
    [Resources] or the writing of one of the two files.  A missing
    directory is never the cause ([FileNotFoundError] is not raised),
    and neither is the rendering. *)
Theorem main_error_kinds dir w e :
  main dir w = Py.Raise e ->
  (e = Py.FileExistsError /\ is_file w (resources_dir dir) = true) \/
  (e = Py.NotADirectoryError /\
   exists q, q `prefix_of` resources_dir dir /\ q <> resources_dir dir /\
             is_file w q = true) \/
  (e = Py.IsADirectoryError /\
   (is_dir w (ico_path dir) = true \/ is_dir w (preview_path dir) = true)) \/
  (exists q r,
      denied w !! q = Some r /\ e = refusal_error r /\
      ((q `prefix_of` resources_dir dir /\ path_exists w q = false) \/
       q = ico_path dir \/ q = preview_path dir)).
Proof.
  intros H. destruct (main_steps dir w) as (first & preview & _ & _ & Hmain).
  rewrite Hmain in H. clear Hmain.
  apply bind_raise in H as [Hmk | (wa & Hmk & H)].
  { unfold makedirs in Hmk. apply makedirs_rev_raise in Hmk.
    rewrite rev_involutive in Hmk.
    destruct Hmk as [Hmk | [Hmk | (q & r & Hq & Hnew & Hr & ->)]];
      [auto | auto | ].
    right; right; right. exists q, r. auto. }
  pose proof (makedirs_ok _ _ _ Hmk) as ((_ & Hden & _) & Hres & _).
  assert (Hback : forall q, ~ q `prefix_of` resources_dir dir ->
            is_dir wa q = true -> is_dir w q = true).
  { intros q Hq Hd. rewrite (is_dir_same wa w); [exact Hd | ].
    symmetry. now apply (makedirs_elsewhere _ _ _ _ Hmk). }
  right. right.
  apply bind_raise in H as [Hico | (wb & Hico & H)].
  { apply write_file_raise in Hico
      as [[_ Hmiss] | [[_ Hfile] | [(-> & _ & Hd) | (r & Hr & -> & _)]]].
    - rewrite removelast_ico_path, (is_dir_exists _ _ Hres) in Hmiss.
      discriminate Hmiss.
    - unfold is_file in Hfile. rewrite removelast_ico_path, Hres in Hfile.
      rewrite andb_false_r in Hfile. discriminate Hfile.
    - left. split; [reflexivity | left].
      apply Hback; [apply ico_path_not_prefix | exact Hd].
    - right. exists (ico_path dir), r. rewrite Hden in Hr. auto. }
  apply write_file_ok in Hico as (_ & _ & _ & ->).
  apply bind_raise in H as [Hpng | (wc & _ & H)]; [ | discriminate H].
  assert (Hres' : is_dir (print (icon_line dir)
                    (MkWorld (<[ico_path dir := File (IcoFile [Provided first])]>
                                (files wa)) (stdout wa) (denied wa)))
                    (resources_dir dir) = true).
  { unfold print. cbn [files stdout denied].
    rewrite insert_file_is_dir; [exact Hres | ].
    apply join_longer. reflexivity. }
  apply write_file_raise in Hpng
    as [[_ Hmiss] | [[_ Hfile] | [(-> & _ & Hd) | (r & Hr & -> & _)]]].
  - rewrite removelast_preview_path, (is_dir_exists _ _ Hres') in Hmiss.
    discriminate Hmiss.
  - unfold is_file in Hfile. rewrite removelast_preview_path, Hres' in Hfile.
    rewrite andb_false_r in Hfile. discriminate Hfile.
  - left. split; [reflexivity | right].
    apply Hback; [apply preview_path_not_prefix | ].
    unfold print in Hd. cbn [files stdout denied] in Hd.
    rewrite insert_file_is_dir in Hd by apply ico_path_ne_preview_path.
    exact Hd.
  - right. exists (preview_path dir), r.
    unfold print in Hr. cbn [denied] in Hr. rewrite Hden in Hr. auto.
Qed.

Lemma main_error_kinds_witness :
  main ["src"]
    (MkWorld {[ ["src"] := Dir ]} []
       {[ ["src"; "Resources"] := NotPermitted ]})
    = Py.Raise Py.PermissionError /\
  exists q r,
    ({[ ["src"; "Resources"] := NotPermitted ]} : gmap (list string) Refusal)
      !! q = Some r /\
    Py.PermissionError = refusal_error r.
Proof.
  assert (Hrun : main ["src"]
            (MkWorld {[ ["src"] := Dir ]} []
               {[ ["src"; "Resources"] := NotPermitted ]})
          = Py.Raise Py.PermissionError) by (vm_compute; reflexivity).
  split; [exact Hrun | ].
  destruct (main_error_kinds _ _ _ Hrun)
    as [[Hne _] | [[Hne _] | [[Hne _] | (q & r & Hr & He & _)]]];
    [discriminate Hne | discriminate Hne | discriminate Hne | ].
  exists q, r. split; [exact Hr | exact He].
Defined.

